(** * Compositor cached images and node-tree utilities

    A shallow embedding of
    - [source/blender/compositor/cached_resources/intern/cached_image.cc]
      (the cached image key, the cached image and its container), and
    - [source/blender/compositor/intern/utilities.cc]
      (queries over the derived node tree),
    together with the properties their specification states about them.

    Conventions.  C integers are [Z]; a pointer that may be null is an
    [option]; a dereference of a null pointer makes the enclosing function
    return [None].  [blender::Map] is a [gmap]; functions of other modules
    that the two files call are the fields of one environment record.
    Every struct lives in a module of its name, so that [ImBuf.x b] reads
    like [b->x]. *)

From Stdlib Require Import ZArith Lia.
From stdpp Require Import base option list gmap strings fin_maps.

Local Open Scope Z_scope.

(** ** DNA data the compositor reads *)

(** [DNA_ID.h]: the name of a data-block and the library it comes from.
    Of a library only [lib->id.name] is read. *)
Module Library.
Record t := make { id_name : string }.
End Library.

Module ID.
Record t := make {
  name : string;
  lib : option Library.t
}.
End ID.

(** [DNA_image_types.h]: the members of [ImageUser] the compositor touches. *)
Module ImageUser.
Record t := make {
  framenr : Z;
  layer : Z;
  view : Z;
  pass : Z;
  multi_index : Z
}.

Definition set_view (v : Z) (u : t) : t :=
  make (framenr u) (layer u) v (pass u) (multi_index u).

Definition set_pass (v : Z) (u : t) : t :=
  make (framenr u) (layer u) (view u) v (multi_index u).
End ImageUser.

(** ** The cached image key *)

Module CachedImageKey.

(** [class CachedImageKey]: an image user and a pass name. *)
Record t := make {
  image_user : ImageUser.t;
  pass_name : string
}.

Section Hash.
(** [get_default_hash] of [BLI_hash.hh], at the four argument types. *)
Variable get_default_hash : Z → Z → Z → string → Z.

Definition hash (k : t) : Z :=
  get_default_hash (ImageUser.framenr (image_user k))
                   (ImageUser.layer (image_user k))
                   (ImageUser.view (image_user k))
                   (pass_name k).
End Hash.

(** [operator==]. *)
Definition eqb (a b : t) : bool :=
  (ImageUser.framenr (image_user a) =? ImageUser.framenr (image_user b))
  && (ImageUser.layer (image_user a) =? ImageUser.layer (image_user b))
  && (ImageUser.view (image_user a) =? ImageUser.view (image_user b))
  && bool_decide (pass_name a = pass_name b).

(** The four members [hash] and [operator==] read.  [blender::Map] tells
    keys apart with exactly these two functions, so a map keyed by
    [CachedImageKey] is a map keyed by [fields]. *)
Definition fields (k : t) : Z * Z * Z * string :=
  (ImageUser.framenr (image_user k), ImageUser.layer (image_user k),
   ImageUser.view (image_user k), pass_name k).

End CachedImageKey.

Abbreviation KeyFields := (Z * Z * Z * string)%type.

(** ** Images, image buffers and render results *)

(** [RE_pipeline.h]: passes, layers and views of a render result. *)
Module RenderPass.
Record t := make {
  name : string;
  chan_id : string
}.
End RenderPass.

Module RenderLayer.
Record t := make {
  name : string;
  passes : list RenderPass.t
}.
End RenderLayer.

Module RenderView.
Record t := make { name : string }.
End RenderView.

Module RenderResult.
Record t := make {
  layers : list RenderLayer.t;
  views : list RenderView.t
}.
End RenderResult.

(** [DNA_image_types.h].  [rr] is the render result of the image as
    [BKE_image_acquire_ibuf] leaves it; it is null for an image that has
    none. *)
Module Image.
Record t := make {
  id : ID.t;
  rr : option RenderResult.t
}.
End Image.

(** [IMB_imbuf_types.hh].  A pixel buffer is kept as the list of its
    elements: the code below hands buffers on and never computes with a
    pixel.  A null [data] pointer is [None]. *)
Module ImBufBuffer.
Record t := make {
  data : option (list Z);
  colorspace : option string
}.
End ImBufBuffer.

Module ImBuf.
Record t := make {
  x : Z;
  y : Z;
  planes : Z;
  channels : Z;
  flags : Z;
  ftype : Z;
  float_buffer : ImBufBuffer.t;
  byte_buffer : ImBufBuffer.t;
  dds_data : option (list Z)
}.

Definition set_flags (v : Z) (b : t) : t :=
  make (x b) (y b) (planes b) (channels b) v (ftype b) (float_buffer b)
       (byte_buffer b) (dds_data b).

Definition set_channels (v : Z) (b : t) : t :=
  make (x b) (y b) (planes b) v (flags b) (ftype b) (float_buffer b)
       (byte_buffer b) (dds_data b).

Definition set_ftype (v : Z) (b : t) : t :=
  make (x b) (y b) (planes b) (channels b) (flags b) v (float_buffer b)
       (byte_buffer b) (dds_data b).
End ImBuf.

(** [IMB_assign_float_buffer], [IMB_assign_byte_buffer] and
    [IMB_assign_dds_data] with [IB_DO_NOT_TAKE_OWNERSHIP]: the buffer of
    the source becomes the buffer of the target. *)
Definition IMB_assign_float_buffer (b : ImBuf.t) (v : ImBufBuffer.t) : ImBuf.t :=
  ImBuf.make (ImBuf.x b) (ImBuf.y b) (ImBuf.planes b) (ImBuf.channels b)
             (ImBuf.flags b) (ImBuf.ftype b) v (ImBuf.byte_buffer b)
             (ImBuf.dds_data b).

Definition IMB_assign_byte_buffer (b : ImBuf.t) (v : ImBufBuffer.t) : ImBuf.t :=
  ImBuf.make (ImBuf.x b) (ImBuf.y b) (ImBuf.planes b) (ImBuf.channels b)
             (ImBuf.flags b) (ImBuf.ftype b) (ImBuf.float_buffer b) v
             (ImBuf.dds_data b).

Definition IMB_assign_dds_data (b : ImBuf.t) (v : option (list Z)) : ImBuf.t :=
  ImBuf.make (ImBuf.x b) (ImBuf.y b) (ImBuf.planes b) (ImBuf.channels b)
             (ImBuf.flags b) (ImBuf.ftype b) (ImBuf.float_buffer b)
             (ImBuf.byte_buffer b) v.

(** ** [BLI_listbase.h] on lists *)

(** [BLI_findlink]: the link at a position, null when there is none. *)
Definition BLI_findlink {A} (l : list A) (number : Z) : option A :=
  if number <? 0 then None else l !! Z.to_nat number.

(** [BLI_findstringindex]: the position of the first link of that name,
    [-1] when there is none. *)
Fixpoint BLI_findstringindex {A} (name_of : A → string) (l : list A)
    (name : string) : Z :=
  match l with
  | [] => -1
  | a :: l' =>
      if bool_decide (name_of a = name) then 0
      else
        let i := BLI_findstringindex name_of l' name in
        if i =? -1 then -1 else i + 1
  end.

(** [BLI_listbase_count_at_most]. *)
Definition BLI_listbase_count_at_most {A} (l : list A) (count_max : Z) : Z :=
  Z.min (Z.of_nat (length l)) count_max.

(** ** Results *)

(** [COM_result.hh], as far as the two files use it. *)
Inductive ResultType := Float | Int | Vector | Color.

Inductive ResultPrecision := Half | Full.

Module Cryptomatte.
Record t := make {
  manifest : string;
  hash : string;
  conversion : string
}.
End Cryptomatte.

Module MetaData.
Record t := make {
  cryptomatte : Cryptomatte.t;
  is_4d_vector : bool
}.

Definition set_manifest (v : string) (m : t) : t :=
  make (Cryptomatte.make v (Cryptomatte.hash (cryptomatte m))
                         (Cryptomatte.conversion (cryptomatte m)))
       (is_4d_vector m).

Definition set_hash (v : string) (m : t) : t :=
  make (Cryptomatte.make (Cryptomatte.manifest (cryptomatte m)) v
                         (Cryptomatte.conversion (cryptomatte m)))
       (is_4d_vector m).

Definition set_conversion (v : string) (m : t) : t :=
  make (Cryptomatte.make (Cryptomatte.manifest (cryptomatte m))
                         (Cryptomatte.hash (cryptomatte m)) v)
       (is_4d_vector m).

Definition set_is_4d_vector (v : bool) (m : t) : t :=
  make (cryptomatte m) v.
End MetaData.

(** A texture made from an image buffer, with its chain of mipmaps. *)
Inductive GPUTexture := ImageTexture (source : ImBuf.t).

(** What a result holds: nothing before it is allocated, a texture it wraps
    on the GPU, or a buffer of its own on the CPU. *)
Inductive ResultData :=
| NotAllocated
| Wrapped (texture : GPUTexture)
| Allocated (size : Z * Z) (pixels : list Z).

Module Result.
Record t := make {
  type_ : ResultType;
  precision_ : ResultPrecision;
  data_ : ResultData;
  meta_data : MetaData.t
}.

Definition is_allocated (r : t) : bool :=
  match data_ r with NotAllocated => false | _ => true end.

Definition set_precision (p : ResultPrecision) (r : t) : t :=
  make (type_ r) p (data_ r) (meta_data r).

Definition set_type (ty : ResultType) (r : t) : t :=
  make ty (precision_ r) (data_ r) (meta_data r).

Definition set_data (d : ResultData) (r : t) : t :=
  make (type_ r) (precision_ r) d (meta_data r).

Definition set_meta_data (m : MetaData.t) (r : t) : t :=
  make (type_ r) (precision_ r) (data_ r) m.
End Result.

(** ** The evaluation context *)

(** [COM_context.hh]: what the cache asks of the context.  A value of this
    record is the context as it stands at one call. *)
Module Context.
Record t := make {
  get_frame_number : Z;
  get_view_name : string;
  use_gpu : bool;
  query_id_recalc_flag : ID.t → Z
}.
End Context.

(** ** Functions of other modules

    What [cached_image.cc] calls in the image, image-buffer, color
    management and Cryptomatte modules, and the constants it reads from
    their headers.  Throughout, they are an arbitrary instance of this
    class. *)
Class Env := {
  (** [DNA_ID.h], [IMB_imbuf_types.hh] *)
  ID_RECALC_ALL : Z;
  IB_halffloat : Z;
  IMB_FTYPE_DDS : Z;
  (** [BKE_image.hh]; a function that writes through its [ImageUser]
      pointer returns the image user it leaves. *)
  BKE_image_user_frame_calc : Image.t → ImageUser.t → Z → ImageUser.t;
  BKE_image_acquire_ibuf : Image.t → ImageUser.t → option ImBuf.t;
  BKE_image_is_multiview : Image.t → bool;
  BKE_image_is_multilayer : Image.t → bool;
  BKE_image_multilayer_index : RenderResult.t → ImageUser.t → ImageUser.t;
  BKE_image_multiview_index : Image.t → ImageUser.t → ImageUser.t;
  (** the (key, value) pairs [BKE_image_multilayer_stamp_info_callback]
      hands to its callback, in order *)
  BKE_image_multilayer_stamp_info : Image.t → list (string * string);
  (** [BKE_cryptomatte.hh] *)
  BKE_cryptomatte_extract_layer_name : string → string;
  BKE_cryptomatte_meta_data_key : string → string → string;
  (** [IMB_imbuf.hh], [IMB_colormanagement.hh] *)
  IMB_allocImBuf : Z → Z → Z → Z → ImBuf.t;
  IMB_float_from_rect : ImBuf.t → ImBuf.t;
  IMB_colormanagement_space_is_data : option string → bool;
  IMB_colormanagement_space_is_scene_linear : option string → bool;
  (** [COM_result.hh]: type and precision of a result fresh from
      [Result(context)], and the pixels [store_pixel_generic_type] leaves
      in a result of the given type after the loop that loads every texel
      of a buffer of [channels_count] channels. *)
  Result_default_type : ResultType;
  Result_default_precision : ResultPrecision;
  copy_generic_type : Z → ResultType → Z * Z → option (list Z) → list Z;
  (** [COM_cached_resource.hh]: the value the [needed] flag of a cached
      resource starts with. *)
  CachedResource_needed : bool
}.

(** Conversion of an [int] to the [short] members of [ImageUser]. *)
Definition short_of_int (z : Z) : Z := (z + 32768) mod 65536 - 32768.

(** Modelled from the spec: the class [Result] of [COM_result.hh] is not
    among the sources.  The spec asks of a resource an "empty"/default
    state that is falsy/checkable: a result fresh from [Result(context)]
    holds no data and no meta data. *)
Definition Result_new `{Env} (context : Context.t) : Result.t :=
  Result.make Result_default_type Result_default_precision NotAllocated
    (MetaData.make (Cryptomatte.make "" "" "") false).

(** ** The cached image *)

Module CachedImage.
(** [class CachedImage : public CachedResource]: the result, the texture
    the destructor frees, and the [needed] flag of [CachedResource], which
    the constructor leaves as [CachedResource] starts it and [get] sets on
    every image it hands out, a new one included. *)
Record t := make {
  result : Result.t;
  texture_ : option GPUTexture;
  needed : bool
}.

Definition set_needed (v : bool) (c : t) : t :=
  make (result c) (texture_ c) v.
End CachedImage.

Section CachedImage.
Context `{Env}.

Definition get_render_layer (image : Image.t) (image_user : ImageUser.t)
    : option (option RenderLayer.t) :=
  rr ← Image.rr image;
  Some (BLI_findlink (RenderResult.layers rr) (ImageUser.layer image_user)).

Definition get_pass_index (image : Image.t) (image_user : ImageUser.t)
    (name : string) : option Z :=
  found ← get_render_layer image image_user;
  render_layer ← found;
  Some (BLI_findstringindex RenderPass.name
          (RenderLayer.passes render_layer) name).

Definition get_render_pass (render_layer : RenderLayer.t)
    (image_user : ImageUser.t) : option RenderPass.t :=
  BLI_findlink (RenderLayer.passes render_layer) (ImageUser.pass image_user).

Definition get_view_index (context : Context.t) (image : Image.t)
    (image_user : ImageUser.t) : option Z :=
  if negb (BKE_image_is_multiview image) then Some 0
  else
    rr ← Image.rr image;
    let views := RenderResult.views rr in
    if BLI_listbase_count_at_most views 2 <? 2 then Some 0
    else
      let view := ImageUser.view image_user in
      if negb (view =? 0) then Some (view - 1)
      else
        let view_name := Context.get_view_name context in
        let matched_view :=
          BLI_findstringindex RenderView.name views view_name in
        if matched_view =? -1 then Some 0 else Some matched_view.

Definition compute_image_user_for_pass (context : Context.t)
    (image : Image.t) (image_user : ImageUser.t) (pass_name : string)
    : option ImageUser.t :=
  let image_user_for_pass := image_user in
  view ← get_view_index context image image_user_for_pass;
  let image_user_for_pass :=
    ImageUser.set_view (short_of_int view) image_user_for_pass in
  if BKE_image_is_multilayer image then
    pass ← get_pass_index image image_user_for_pass pass_name;
    let image_user_for_pass :=
      ImageUser.set_pass (short_of_int pass) image_user_for_pass in
    rr ← Image.rr image;
    Some (BKE_image_multilayer_index rr image_user_for_pass)
  else Some (BKE_image_multiview_index image image_user_for_pass).

Definition compute_linear_buffer (image_buffer : ImBuf.t) : ImBuf.t :=
  let linear_image_buffer :=
    IMB_allocImBuf (ImBuf.x image_buffer) (ImBuf.y image_buffer)
                   (ImBuf.planes image_buffer) 0 in
  let linear_image_buffer :=
    ImBuf.set_flags (ImBuf.flags image_buffer) linear_image_buffer in
  let linear_image_buffer :=
    IMB_assign_float_buffer linear_image_buffer
      (ImBuf.float_buffer image_buffer) in
  let linear_image_buffer :=
    ImBuf.set_channels (ImBuf.channels image_buffer) linear_image_buffer in
  let linear_image_buffer :=
    match ImBufBuffer.data (ImBuf.float_buffer linear_image_buffer) with
    | None =>
        IMB_float_from_rect
          (IMB_assign_byte_buffer linear_image_buffer
             (ImBuf.byte_buffer image_buffer))
    | Some _ => linear_image_buffer
    end in
  let is_suitable_compressed_color_space :=
    IMB_colormanagement_space_is_data
      (ImBufBuffer.colorspace (ImBuf.byte_buffer image_buffer))
    || IMB_colormanagement_space_is_scene_linear
         (ImBufBuffer.colorspace (ImBuf.byte_buffer image_buffer)) in
  if (ImBuf.ftype image_buffer =? IMB_FTYPE_DDS)
     && is_suitable_compressed_color_space
  then
    IMB_assign_dds_data (ImBuf.set_ftype IMB_FTYPE_DDS linear_image_buffer)
      (ImBuf.dds_data image_buffer)
  else linear_image_buffer.

(** The callback [populate_meta_data] hands to the stamp iteration. *)
Definition stamp_callback (cryptomatte_layer_name : string)
    (meta_data : MetaData.t) (entry : string * string) : MetaData.t :=
  let '(key, value) := entry in
  let manifest_key :=
    BKE_cryptomatte_meta_data_key cryptomatte_layer_name "manifest" in
  let meta_data :=
    if bool_decide (key = manifest_key)
    then MetaData.set_manifest value meta_data else meta_data in
  let hash_key :=
    BKE_cryptomatte_meta_data_key cryptomatte_layer_name "hash" in
  let meta_data :=
    if bool_decide (key = hash_key)
    then MetaData.set_hash value meta_data else meta_data in
  let conversion_key :=
    BKE_cryptomatte_meta_data_key cryptomatte_layer_name "conversion" in
  if bool_decide (key = conversion_key)
  then MetaData.set_conversion value meta_data else meta_data.

Definition populate_meta_data (image : Image.t) (image_user : ImageUser.t)
    (result : Result.t) : option Result.t :=
  if negb (BKE_image_is_multilayer image) then Some result
  else
    found ← get_render_layer image image_user;
    match found with
    | None => Some result
    | Some render_layer =>
        match get_render_pass render_layer image_user with
        | None => Some result
        | Some render_pass =>
            let combined_pass_name :=
              RenderLayer.name render_layer +:+ "." +:+
              RenderPass.name render_pass in
            let cryptomatte_layer_name :=
              BKE_cryptomatte_extract_layer_name combined_pass_name in
            let meta_data :=
              foldl (stamp_callback cryptomatte_layer_name)
                    (Result.meta_data result)
                    (BKE_image_multilayer_stamp_info image) in
            let meta_data :=
              if bool_decide (RenderPass.chan_id render_pass = "XYZW")
              then MetaData.set_is_4d_vector true meta_data
              else meta_data in
            Some (Result.set_meta_data meta_data result)
        end
    end.

(** [CachedImage::CachedImage].  [None] stands for the dereference of a
    null pointer: of the render result, of the render layer, of the image
    buffer acquired for the pass, or of the float data the loop on the CPU
    loads the texels from. *)
Definition CachedImage_new (context : Context.t) (image : Image.t)
    (image_user : ImageUser.t) (pass_name : string)
    : option CachedImage.t :=
  let result := Result_new context in
  let initial_image_buffer := BKE_image_acquire_ibuf image image_user in
  match initial_image_buffer with
  | None => Some (CachedImage.make result None CachedResource_needed)
  | Some _ =>
      image_user_for_pass ←
        compute_image_user_for_pass context image image_user pass_name;
      image_buffer ← BKE_image_acquire_ibuf image image_user_for_pass;
      let linear_image_buffer := compute_linear_buffer image_buffer in
      let use_half_float :=
        negb (Z.land (ImBuf.flags linear_image_buffer) IB_halffloat =? 0) in
      let result :=
        Result.set_precision (if use_half_float then Half else Full)
                             result in
      let is_single_channel := ImBuf.channels linear_image_buffer =? 1 in
      let result :=
        Result.set_type (if is_single_channel then Float else Color)
                        result in
      '(texture_, result) ←
        (if Context.use_gpu context then
           let texture := ImageTexture linear_image_buffer in
           Some (Some texture, Result.set_data (Wrapped texture) result)
         else
           let size := (ImBuf.x image_buffer, ImBuf.y image_buffer) in
           let channels_count := ImBuf.channels linear_image_buffer in
           (* the loop loads every texel of [size] through the float data *)
           if (0 <? ImBuf.x image_buffer) && (0 <? ImBuf.y image_buffer)
              && bool_decide
                   (ImBufBuffer.data (ImBuf.float_buffer linear_image_buffer)
                    = None)
           then None
           else
             Some (None,
                   Result.set_data
                     (Allocated size
                        (copy_generic_type channels_count
                           (Result.type_ result) size
                           (ImBufBuffer.data
                              (ImBuf.float_buffer linear_image_buffer))))
                     result));
      result ← populate_meta_data image image_user_for_pass result;
      Some (CachedImage.make result texture_ CachedResource_needed)
  end.

End CachedImage.

(** ** The cached image container *)

Module CachedImageContainer.
(** [class CachedImageContainer]: the map from the name of an image ID to
    the cached images of that ID.  [constructed] is not a member of the
    class: it counts the runs of [CachedImage]'s constructor so far, the
    way a test instruments a factory with a counter. *)
Record t := make {
  map_ : gmap string (gmap KeyFields CachedImage.t);
  constructed : nat
}.

Definition empty : t := make ∅ 0.

(** The cached image of an ID name and a key, if there is one. *)
Definition entry (id_key : string) (key : KeyFields) (c : t)
    : option CachedImage.t :=
  inner ← map_ c !! id_key; inner !! key.
End CachedImageContainer.

(** Calls on the container: they return a value and the container they
    leave, or [None] after a null dereference. *)
Definition Call (A : Type) : Type :=
  CachedImageContainer.t → option (A * CachedImageContainer.t).

#[global] Instance Call_ret : MRet Call := λ A a c, Some (a, c).

#[global] Instance Call_bind : MBind Call := λ A B f m c,
  match m c with
  | Some (a, c') => f a c'
  | None => None
  end.

(** The container as it stands between two calls. *)
Definition container : Call CachedImageContainer.t := λ c, Some (c, c).

Section CachedImageContainer.
Context `{Env}.

(** [CachedImageContainer::reset]: [remove_if] drops the items its
    predicate holds of, so what stays are the needed images and the IDs
    that still have some. *)
Definition reset : Call unit := λ c,
  let map_ : gmap string (gmap KeyFields CachedImage.t) :=
    (λ cached_images_for_id : gmap KeyFields CachedImage.t,
       filter (λ item : KeyFields * CachedImage.t,
                 CachedImage.needed item.2 = true)
              cached_images_for_id)
      <$> CachedImageContainer.map_ c in
  let map_ : gmap string (gmap KeyFields CachedImage.t) :=
    filter (λ item : string * gmap KeyFields CachedImage.t, item.2 ≠ ∅)
           map_ in
  let map_ : gmap string (gmap KeyFields CachedImage.t) :=
    (λ cached_images_for_id : gmap KeyFields CachedImage.t,
       CachedImage.set_needed false <$> cached_images_for_id)
      <$> map_ in
  Some (tt, CachedImageContainer.make map_ (CachedImageContainer.constructed c)).

(** The test of [get] on the recalculate flag of the image ID. *)
Definition recalc_requested (context : Context.t) (image : Image.t) : bool :=
  negb (Z.land (Context.query_id_recalc_flag context (Image.id image))
               ID_RECALC_ALL =? 0).

(** [CachedImageContainer::get]. *)
Definition get (context : Context.t) (image : option Image.t)
    (image_user : option ImageUser.t) (pass_name : string)
    : Call Result.t := λ c,
  match image, image_user with
  | Some image, Some image_user =>
      let image_user_for_frame :=
        BKE_image_user_frame_calc image image_user
          (Context.get_frame_number context) in
      let key := CachedImageKey.make image_user_for_frame pass_name in
      let library_key :=
        match ID.lib (Image.id image) with
        | Some lib => Library.id_name lib
        | None => ""
        end in
      let id_key := ID.name (Image.id image) +:+ library_key in
      (* lookup_or_add_default *)
      let cached_images_for_id :=
        default ∅ (CachedImageContainer.map_ c !! id_key) in
      let cached_images_for_id :=
        if recalc_requested context image then ∅ else cached_images_for_id in
      (* lookup_or_add_cb *)
      looked_up ←
        match cached_images_for_id !! CachedImageKey.fields key with
        | Some cached_image =>
            Some (cached_image, CachedImageContainer.constructed c)
        | None =>
            cached_image ←
              CachedImage_new context image image_user_for_frame pass_name;
            Some (cached_image, S (CachedImageContainer.constructed c))
        end;
      let '(cached_image, constructed) := looked_up in
      let cached_image := CachedImage.set_needed true cached_image in
      let cached_images_for_id :=
        <[CachedImageKey.fields key := cached_image]> cached_images_for_id in
      Some (CachedImage.result cached_image,
            CachedImageContainer.make
              (<[id_key := cached_images_for_id]> (CachedImageContainer.map_ c))
              constructed)
  | _, _ => Some (Result_new context, c)
  end.

(** The name under which [get] caches the images of an ID, and the key it
    makes of a request. *)
Definition id_key_of (image : Image.t) : string :=
  ID.name (Image.id image)
  +:+ match ID.lib (Image.id image) with
      | Some lib => Library.id_name lib
      | None => ""
      end.

Definition key_of (context : Context.t) (image : Image.t)
    (image_user : ImageUser.t) (pass_name : string) : KeyFields :=
  CachedImageKey.fields
    (CachedImageKey.make
       (BKE_image_user_frame_calc image image_user
          (Context.get_frame_number context))
       pass_name).

(** [get] called once for each context of a list, with the same image,
    image user and pass name; the results in the order of the calls. *)
Fixpoint get_each (contexts : list Context.t) (image : option Image.t)
    (image_user : option ImageUser.t) (pass_name : string)
    : Call (list Result.t) :=
  match contexts with
  | [] => mret []
  | context :: contexts' =>
      r ← get context image image_user pass_name;
      rs ← get_each contexts' image image_user pass_name;
      mret (r :: rs)
  end.

End CachedImageContainer.

(** ** Notions the properties of the container are stated with *)

Section CacheNotions.
Context `{Env}.
Implicit Types (c : CachedImageContainer.t) (id_key : string) (key : KeyFields).

(** What [reset] leaves of one cached image. *)
Definition pruned (cached_image : CachedImage.t) : option CachedImage.t :=
  if CachedImage.needed cached_image
  then Some (CachedImage.set_needed false cached_image)
  else None.

(** What the lookup of [get] finds: the cached image of the request, unless
    the recalculate flag of the ID has just emptied its map. *)
Definition found (context : Context.t) (image : Image.t)
    (image_user : ImageUser.t) (pass_name : string) c
    : option CachedImage.t :=
  if recalc_requested context image then None
  else CachedImageContainer.entry (id_key_of image)
         (key_of context image image_user pass_name) c.

(** What [get] leaves of a cached image other than the requested one. *)
Definition kept (context : Context.t) (image : Image.t) id_key c key
    : option CachedImage.t :=
  if decide (id_key = id_key_of image) then
    if recalc_requested context image then None
    else CachedImageContainer.entry id_key key c
  else CachedImageContainer.entry id_key key c.

(** The constructor returns for the request, rather than dereferencing a
    null pointer. *)
Definition constructible (context : Context.t) (image : Image.t)
    (image_user : ImageUser.t) (pass_name : string) : Prop :=
  is_Some (CachedImage_new context image
             (BKE_image_user_frame_calc image image_user
                (Context.get_frame_number context)) pass_name).

(** A later call of the same evaluation: the same frame, and the recalculate
    flag of the image not set. *)
Definition same_pass (context : Context.t) (image : Image.t)
    (context' : Context.t) : Prop :=
  Context.get_frame_number context' = Context.get_frame_number context
  ∧ recalc_requested context' image = false.

End CacheNotions.

(** * Node-tree utilities ([utilities.cc]) *)

(** ** Nodes and sockets *)

(** [DNA_node_types.h]: the declared data type of a socket.  The four
    enumerators [get_node_socket_result_type] names, and any other value of
    [socket->type]. *)
Inductive eNodeSocketDatatype :=
| SOCK_FLOAT
| SOCK_INT
| SOCK_VECTOR
| SOCK_RGBA
| SOCK_other (value : Z).

Inductive eNodeSocketInOut := SOCK_IN | SOCK_OUT.

Module bNode.
Record t := make {
  name : string;
  flag : Z
}.
End bNode.

Module bNodeSocket.
Record t := make {
  owner_node : bNode.t;
  in_out : eNodeSocketInOut;
  type : eNodeSocketDatatype;
  index : Z
}.

Definition is_input (socket : t) : bool :=
  match in_out socket with SOCK_IN => true | SOCK_OUT => false end.
End bNodeSocket.

(** [NOD_derived_node_tree.hh]: a tree context knows its instance key and,
    through its derived tree, the instance key of the active context. *)
Module DTreeContext.
Record t := make {
  instance_key : Z;
  active_context_instance_key : Z
}.
End DTreeContext.

Module DNode.
Record t := make {
  context : DTreeContext.t;
  bnode : bNode.t
}.
End DNode.

(** A derived socket: a socket in a tree context, or the null socket a
    default constructor makes.  [DInputSocket] and [DOutputSocket] are
    derived sockets too. *)
Module DSocket.
Record ref := make {
  context : DTreeContext.t;
  bsocket : bNodeSocket.t
}.

Definition t : Type := option ref.

Definition null : t := None.

Definition node (socket : ref) : DNode.t :=
  DNode.make (context socket) (bNodeSocket.owner_node (bsocket socket)).
End DSocket.

(** The two builds of [BLI_assert.h]. *)
Inductive Build := Debug | Release.

(** Modelled from the spec: [BLI_assert.h] is not among the sources.  An
    unreachable place is a programming error: assert/fatal in debug, and
    nothing in release, where the code after it runs.  [None] is the
    failed assertion. *)
Definition BLI_assert_unreachable (build : Build) : option unit :=
  match build with Debug => None | Release => Some tt end.

(** [get_node_socket_result_type]. *)
Definition get_node_socket_result_type (build : Build)
    (socket : bNodeSocket.t) : option ResultType :=
  match bNodeSocket.type socket with
  | SOCK_FLOAT => Some Float
  | SOCK_INT => Some Int
  | SOCK_VECTOR => Some Vector
  | SOCK_RGBA => Some Color
  | SOCK_other _ => BLI_assert_unreachable build;; Some Float
  end.

Section NodeFlags.
(** [DNA_node_types.h]: the bits of [bNode::flag]. *)
Variables NODE_PREVIEW NODE_HIDDEN : Z.

(** [is_node_preview_needed]. *)
Definition is_node_preview_needed (node : DNode.t) : bool :=
  if Z.land (bNode.flag (DNode.bnode node)) NODE_PREVIEW =? 0 then false
  else if negb (Z.land (bNode.flag (DNode.bnode node)) NODE_HIDDEN =? 0)
  then false
  else if negb (DTreeContext.instance_key (DNode.context node)
                =? DTreeContext.active_context_instance_key
                     (DNode.context node))
  then false
  else true.

End NodeFlags.

(** ** Links of the derived node tree *)

(** [DOutputSocket::TargetSocketPathInfo]; the utilities ignore it. *)
Record TargetSocketPathInfo := { path_sockets : list DSocket.ref }.

(** What the utilities ask of the links of a derived node tree
    ([NOD_derived_node_tree.hh]): whether a socket is logically linked, and
    the sockets [foreach_origin_socket] and [foreach_target_socket] hand to
    their callbacks, in the order of the calls. *)
Class Links := {
  is_logically_linked : DSocket.ref → bool;
  origin_sockets : DSocket.ref → list DSocket.t;
  target_sockets : DSocket.ref → list (DSocket.ref * TargetSocketPathInfo)
}.

Section Utilities.
Context `{Links}.

(** The two iterations take a callback that returns nothing; what a lambda
    captures by reference is the state [S] its calls pass on. *)
Definition foreach_origin_socket {S} (input : DSocket.ref)
    (origin_fn : DSocket.t → S → S) (s : S) : S :=
  foldl (λ s origin, origin_fn origin s) s (origin_sockets input).

Definition foreach_target_socket {S} (output : DSocket.ref)
    (target_fn : DSocket.ref → TargetSocketPathInfo → S → S) (s : S) : S :=
  foldl (λ s target, target_fn target.1 target.2 s) s (target_sockets output).

(** [get_input_origin_socket]. *)
Definition get_input_origin_socket (input : DSocket.ref) : DSocket.t :=
  if negb (is_logically_linked input) then Some input
  else
    let socket := DSocket.null in
    foreach_origin_socket input (λ origin socket, origin) socket.

(** [get_output_linked_to_input]; [None] is [origin->is_input()] on a null
    origin. *)
Definition get_output_linked_to_input (input : DSocket.ref)
    : option DSocket.t :=
  let origin := get_input_origin_socket input in
  origin ← origin;
  if bNodeSocket.is_input (DSocket.bsocket origin) then Some DSocket.null
  else Some (Some origin).

(** [is_output_linked_to_node_conditioned].  Besides its result the
    function returns the nodes it called [condition] on, in the order of
    the calls. *)
Definition is_output_linked_to_node_conditioned (output : DSocket.ref)
    (condition : DNode.t → bool) : bool * list DNode.t :=
  let condition_satisfied := false in
  foreach_target_socket output
    (λ target _ '(condition_satisfied, called),
       let called := called ++ [DSocket.node target] in
       if condition (DSocket.node target) then (true, called)
       else (condition_satisfied, called))
    (condition_satisfied, []).

(** [number_of_inputs_linked_to_output_conditioned]. *)
Definition number_of_inputs_linked_to_output_conditioned
    (output : DSocket.ref) (condition : DSocket.ref → bool) : Z :=
  if negb (is_logically_linked output) then 0
  else
    let count := 0 in
    foreach_target_socket output
      (λ target _ count, if condition target then count + 1 else count)
      count.

End Utilities.

(** ** Links through reroutes and group boundaries *)

(** Modelled from the spec: the traversal of [NOD_derived_node_tree.hh] is
    not among the sources.  An input is linked when a link ends in it; a
    link comes from the output of an ordinary node, or from a reroute or a
    group boundary, which is traversed transparently: the origins are then
    those of the links that end in the boundary. *)
#[local] Unset Elimination Schemes.
Inductive Origin :=
| FromOutput (output : DSocket.ref)
| Through (boundary : DNode.t) (links : list Origin).
#[local] Set Elimination Schemes.

Fixpoint origins_of (origin : Origin) : list DSocket.t :=
  match origin with
  | FromOutput output => [Some output]
  | Through _ links => flat_map origins_of links
  end.

(** An output seen from an input through the given boundaries, nearest
    first. *)
Fixpoint chain (boundaries : list DNode.t) (output : DSocket.ref) : Origin :=
  match boundaries with
  | [] => FromOutput output
  | boundary :: boundaries' => Through boundary [chain boundaries' output]
  end.

(** The links of a tree given by the links that end in each input and the
    targets of each output. *)
Definition links_traversed (links_into : DSocket.ref → list Origin)
    (targets : DSocket.ref → list (DSocket.ref * TargetSocketPathInfo))
    : Links :=
  {| is_logically_linked := λ socket,
       match links_into socket with [] => false | _ => true end;
     origin_sockets := λ input, flat_map origins_of (links_into input);
     target_sockets := targets |}.

(** Derived sockets are compared by value. *)
#[global] Instance bNode_eq_dec : EqDecision bNode.t.
Proof. solve_decision. Defined.

#[global] Instance eNodeSocketDatatype_eq_dec : EqDecision eNodeSocketDatatype.
Proof. solve_decision. Defined.

#[global] Instance eNodeSocketInOut_eq_dec : EqDecision eNodeSocketInOut.
Proof. solve_decision. Defined.

#[global] Instance bNodeSocket_eq_dec : EqDecision bNodeSocket.t.
Proof. solve_decision. Defined.

#[global] Instance DTreeContext_eq_dec : EqDecision DTreeContext.t.
Proof. solve_decision. Defined.

#[global] Instance DSocket_ref_eq_dec : EqDecision DSocket.ref.
Proof. solve_decision. Defined.

(** * A small scene to run the model on *)

Module Demo.

(** A one-layer render result with a Combined and a Vector pass. *)
Definition render_result : RenderResult.t :=
  RenderResult.make
    [RenderLayer.make "ViewLayer"
       [RenderPass.make "Combined" "RGBA"; RenderPass.make "Vector" "XYZW"]]
    [RenderView.make ""].

(** Image_A comes from the library LibX; Missing has no file behind it. *)
Definition image_a : Image.t :=
  Image.make (ID.make "IMImage_A" (Some (Library.make "LILibX")))
             (Some render_result).

Definition missing : Image.t :=
  Image.make (ID.make "IMMissing" None) None.

Definition image_user : ImageUser.t := ImageUser.make 0 0 0 0 0.

(** A 2x1 buffer of four channels that holds floats already. *)
Definition buffer : ImBuf.t :=
  ImBuf.make 2 1 32 4 0 0
    (ImBufBuffer.make (Some [1; 2; 3; 4; 5; 6; 7; 8]) None)
    (ImBufBuffer.make None None) None.

Definition env : Env := {|
  ID_RECALC_ALL := -1;
  IB_halffloat := 16;
  IMB_FTYPE_DDS := 5;
  BKE_image_user_frame_calc := λ _ image_user frame,
    ImageUser.make frame (ImageUser.layer image_user)
      (ImageUser.view image_user) (ImageUser.pass image_user)
      (ImageUser.multi_index image_user);
  BKE_image_acquire_ibuf := λ image _,
    if bool_decide (ID.name (Image.id image) = "IMMissing") then None
    else Some buffer;
  BKE_image_is_multiview := λ _, false;
  BKE_image_is_multilayer := λ image,
    bool_decide (is_Some (Image.rr image));
  BKE_image_multilayer_index := λ _ image_user,
    ImageUser.make (ImageUser.framenr image_user)
      (ImageUser.layer image_user) (ImageUser.view image_user)
      (ImageUser.pass image_user) (ImageUser.pass image_user);
  BKE_image_multiview_index := λ _ image_user, image_user;
  BKE_image_multilayer_stamp_info := λ _,
    [("cryptomatte/ViewLayer/hash", "MurmurHash3_32")];
  BKE_cryptomatte_extract_layer_name := λ _, "ViewLayer";
  BKE_cryptomatte_meta_data_key := λ layer_name key_name,
    "cryptomatte/" +:+ layer_name +:+ "/" +:+ key_name;
  IMB_allocImBuf := λ x y planes flags,
    ImBuf.make x y planes 4 flags 0 (ImBufBuffer.make None None)
      (ImBufBuffer.make None None) None;
  IMB_float_from_rect := λ image_buffer, image_buffer;
  IMB_colormanagement_space_is_data := λ _, false;
  IMB_colormanagement_space_is_scene_linear := λ _, true;
  Result_default_type := Float;
  Result_default_precision := Half;
  copy_generic_type := λ _ _ _ pixels, default [] pixels;
  CachedResource_needed := true
|}.

(** The context of an evaluation at a frame, reporting one recalculate flag
    for every ID. *)
Definition context (frame recalc : Z) : Context.t :=
  Context.make frame "" false (λ _, recalc).

(** What the constructor makes of the Combined pass of Image_A. *)
Definition combined_a : CachedImage.t :=
  CachedImage.make
    (Result.make Color Full (Allocated (2, 1) [1; 2; 3; 4; 5; 6; 7; 8])
       (MetaData.make (Cryptomatte.make "" "MurmurHash3_32" "") false))
    None true.

(** The container after one request of that pass at frame 5. *)
Definition after_first_get : CachedImageContainer.t :=
  CachedImageContainer.make
    {[ "IMImage_ALILibX" := {[ (5, 0, 0, "Combined") := combined_a ]} ]} 1.

(** A node tree: the output of an Image node feeds a Blur node directly and
    a Viewer node through two reroutes; the Size input of the Blur node is
    not linked. *)
Definition root : DTreeContext.t := DTreeContext.make 0 0.

Definition image_node : bNode.t := bNode.make "Image" 0.
Definition blur_node : bNode.t := bNode.make "Blur" 4.
Definition viewer_node : bNode.t := bNode.make "Viewer" 0.

Definition image_out : DSocket.ref :=
  DSocket.make root (bNodeSocket.make image_node SOCK_OUT SOCK_RGBA 0).
Definition blur_in : DSocket.ref :=
  DSocket.make root (bNodeSocket.make blur_node SOCK_IN SOCK_RGBA 0).
Definition blur_size : DSocket.ref :=
  DSocket.make root (bNodeSocket.make blur_node SOCK_IN SOCK_FLOAT 1).
Definition viewer_in : DSocket.ref :=
  DSocket.make root (bNodeSocket.make viewer_node SOCK_IN SOCK_RGBA 0).

Definition reroutes : list DNode.t :=
  [DNode.make root (bNode.make "Reroute.001" 0);
   DNode.make root (bNode.make "Reroute" 0)].

Definition links_into (input : DSocket.ref) : list Origin :=
  if bool_decide (input = viewer_in) then [chain reroutes image_out]
  else if bool_decide (input = blur_in) then [FromOutput image_out]
  else [].

Definition targets (output : DSocket.ref)
    : list (DSocket.ref * TargetSocketPathInfo) :=
  if bool_decide (output = image_out)
  then [(blur_in, Build_TargetSocketPathInfo []);
        (viewer_in, Build_TargetSocketPathInfo [])]
  else [].

Definition links : Links := links_traversed links_into targets.

Definition is_blur (node : DNode.t) : bool :=
  bool_decide (bNode.name (DNode.bnode node) = "Blur").

End Demo.

(** * Further code of the two files *)

(** ** The preview output of a node ([utilities.cc]) *)

Section Preview.
Context `{Links}.
(** [DNA_node_types.h]: the bits of [bNode::flag]; [node->output_sockets()]
    of [BKE_node_runtime.hh]. *)
Variables NODE_PREVIEW NODE_HIDDEN : Z.
Variable output_sockets : bNode.t → list bNodeSocket.t.

(** The loop of [find_preview_output_socket] over the output sockets that
    are left. *)
Fixpoint first_linked_output (context : DTreeContext.t)
    (outputs : list bNodeSocket.t) : DSocket.t :=
  match outputs with
  | [] => DSocket.null
  | output :: outputs' =>
      if is_logically_linked (DSocket.make context output)
      then Some (DSocket.make context output)
      else first_linked_output context outputs'
  end.

(** [find_preview_output_socket]. *)
Definition find_preview_output_socket (node : DNode.t) : DSocket.t :=
  if negb (is_node_preview_needed NODE_PREVIEW NODE_HIDDEN node)
  then DSocket.null
  else
    first_linked_output (DNode.context node)
      (output_sockets (DNode.bnode node)).

End Preview.

(** ** The pass whose meta data a cached image carries *)

(** The render pass [populate_meta_data] reads, when it gets to one: the
    image is multi-layer, and the image user names a layer of its render
    result and a pass of that layer. *)
Definition render_pass_read `{Env} (image : Image.t)
    (image_user : ImageUser.t) : option RenderPass.t :=
  if BKE_image_is_multilayer image then
    match get_render_layer image image_user with
    | Some (Some render_layer) => get_render_pass render_layer image_user
    | _ => None
    end
  else None.

(** ** An invariant of the container *)

(** No ID is cached with an empty map of images. *)
Definition no_empty_owner (c : CachedImageContainer.t) : Prop :=
  ∀ id_key (inner : gmap KeyFields CachedImage.t),
    CachedImageContainer.map_ c !! id_key = Some inner → inner ≠ ∅.

(** ** A second scene: two images under one name *)

Module Scene.



(** The functions of [Demo], but for an image that yields no buffer once
    the image user is set to its second pass. *)
Definition unbuffered_pass : Env := {|
  ID_RECALC_ALL := @ID_RECALC_ALL Demo.env;
  IB_halffloat := @IB_halffloat Demo.env;
  IMB_FTYPE_DDS := @IMB_FTYPE_DDS Demo.env;
  BKE_image_user_frame_calc := @BKE_image_user_frame_calc Demo.env;
  BKE_image_acquire_ibuf := λ image image_user,
    if ImageUser.pass image_user =? 1 then None
    else @BKE_image_acquire_ibuf Demo.env image image_user;
  BKE_image_is_multiview := @BKE_image_is_multiview Demo.env;
  BKE_image_is_multilayer := @BKE_image_is_multilayer Demo.env;
  BKE_image_multilayer_index := @BKE_image_multilayer_index Demo.env;
  BKE_image_multiview_index := @BKE_image_multiview_index Demo.env;
  BKE_image_multilayer_stamp_info :=
    @BKE_image_multilayer_stamp_info Demo.env;
  BKE_cryptomatte_extract_layer_name :=
    @BKE_cryptomatte_extract_layer_name Demo.env;
  BKE_cryptomatte_meta_data_key := @BKE_cryptomatte_meta_data_key Demo.env;
  IMB_allocImBuf := @IMB_allocImBuf Demo.env;
  IMB_float_from_rect := @IMB_float_from_rect Demo.env;
  IMB_colormanagement_space_is_data :=
    @IMB_colormanagement_space_is_data Demo.env;
  IMB_colormanagement_space_is_scene_linear :=
    @IMB_colormanagement_space_is_scene_linear Demo.env;
  Result_default_type := @Result_default_type Demo.env;
  Result_default_precision := @Result_default_precision Demo.env;
  copy_generic_type := @copy_generic_type Demo.env;
  CachedResource_needed := @CachedResource_needed Demo.env
|}.

(** The outputs of the nodes of [Demo]: each has two. *)
Definition output_sockets (node : bNode.t) : list bNodeSocket.t :=
  [bNodeSocket.make node SOCK_OUT SOCK_FLOAT 0;
   bNodeSocket.make node SOCK_OUT SOCK_RGBA 1].

(** A tree in which only the second output of a node is linked. *)
Definition second_linked : Links :=
  {| is_logically_linked := λ socket,
       bool_decide (bNodeSocket.index (DSocket.bsocket socket) = 1);
     origin_sockets := λ _, [];
     target_sockets := λ _, [] |}.

End Scene.

(** * Properties of the cached image key *)

(** [operator==] is equality of the four members: a map keyed by
    [CachedImageKey.fields] tells the keys apart that [operator==] does. *)
Lemma CachedImageKey_eqb_fields (a b : CachedImageKey.t) :
  CachedImageKey.eqb a b = true
  ↔ CachedImageKey.fields a = CachedImageKey.fields b.
Proof.
  unfold CachedImageKey.eqb, CachedImageKey.fields.
  rewrite !andb_true_iff, !Z.eqb_eq, bool_decide_eq_true.
  split.
  - intros [[[-> ->] ->] ->]. reflexivity.
  - intros [= -> -> -> ->]. auto.
Qed.

(** C5.  Two keys are equal exactly when frame number, layer, view and pass
    name are equal; equal keys have equal hashes; and keys that differ in
    one of the four are unequal. *)
Theorem CachedImageKey_eqb_hash get_default_hash (a b : CachedImageKey.t) :
  (CachedImageKey.eqb a b = true
   ↔ ImageUser.framenr (CachedImageKey.image_user a)
     = ImageUser.framenr (CachedImageKey.image_user b)
     ∧ ImageUser.layer (CachedImageKey.image_user a)
       = ImageUser.layer (CachedImageKey.image_user b)
     ∧ ImageUser.view (CachedImageKey.image_user a)
       = ImageUser.view (CachedImageKey.image_user b)
     ∧ CachedImageKey.pass_name a = CachedImageKey.pass_name b)
  ∧ (CachedImageKey.eqb a b = true →
     CachedImageKey.hash get_default_hash a
     = CachedImageKey.hash get_default_hash b)
  ∧ (ImageUser.framenr (CachedImageKey.image_user a)
     ≠ ImageUser.framenr (CachedImageKey.image_user b)
     ∨ ImageUser.layer (CachedImageKey.image_user a)
       ≠ ImageUser.layer (CachedImageKey.image_user b)
     ∨ ImageUser.view (CachedImageKey.image_user a)
       ≠ ImageUser.view (CachedImageKey.image_user b)
     ∨ CachedImageKey.pass_name a ≠ CachedImageKey.pass_name b →
     CachedImageKey.eqb a b = false).
Proof.
  assert (Hiff :
    CachedImageKey.eqb a b = true
    ↔ ImageUser.framenr (CachedImageKey.image_user a)
      = ImageUser.framenr (CachedImageKey.image_user b)
      ∧ ImageUser.layer (CachedImageKey.image_user a)
        = ImageUser.layer (CachedImageKey.image_user b)
      ∧ ImageUser.view (CachedImageKey.image_user a)
        = ImageUser.view (CachedImageKey.image_user b)
      ∧ CachedImageKey.pass_name a = CachedImageKey.pass_name b).
  { unfold CachedImageKey.eqb.
    rewrite !andb_true_iff, !Z.eqb_eq, bool_decide_eq_true. tauto. }
  split; [exact Hiff|]. split.
  - intros (Hf & Hl & Hv & Hp)%Hiff. unfold CachedImageKey.hash.
    by rewrite Hf, Hl, Hv, Hp.
  - intros Hdiff. apply not_true_is_false. rewrite Hiff. tauto.
Qed.

(** The members of the image user that [operator==] does not read do not
    tell keys apart: the pass index of the image user is one. *)
Example CachedImageKey_eqb_ignores_pass :
  CachedImageKey.eqb
    (CachedImageKey.make (ImageUser.make 5 0 0 0 0) "Combined")
    (CachedImageKey.make (ImageUser.make 5 0 0 3 3) "Combined")
  = true.
Proof. reflexivity. Qed.

(** ** Properties of the container *)

(** One case of [get_inv]: the container [get] leaves is an insertion into
    an insertion, and every lookup in it is decided by where it is made. *)
Ltac get_inv_case Hinner :=
  simpl; rewrite !lookup_insert_eq; simpl; rewrite lookup_insert_eq;
  repeat split; try done;
  let id_key := fresh "id_key" in
  let key' := fresh "key'" in
  let Hne := fresh "Hne" in
  intros id_key key' Hne; rewrite lookup_insert;
  case_decide as Hid; simpl;
  [ subst id_key; rewrite decide_True by done;
    rewrite lookup_insert_ne by congruence;
    rewrite ?lookup_empty, ?Hinner; done
  | rewrite decide_False by done; done ].

Section CacheProperties.
Context `{Env}.
Implicit Types (c : CachedImageContainer.t) (id_key : string) (key : KeyFields)
  (cached_image : CachedImage.t).

(** What [reset] does to one cached image. *)
Lemma reset_entry c c' id_key key :
  reset c = Some (tt, c') →
  CachedImageContainer.entry id_key key c'
  = CachedImageContainer.entry id_key key c ≫= pruned.
Proof.
  intros [= <-]. unfold CachedImageContainer.entry; simpl.
  rewrite lookup_fmap, map_lookup_filter, lookup_fmap.
  destruct (CachedImageContainer.map_ c !! id_key) as [inner|] eqn:Hinner;
    simpl; [|done].
  case_guard as Hne; simpl.
  - rewrite lookup_fmap, map_lookup_filter.
    destruct (inner !! key) as [cached_image|]; simpl; [|done].
    unfold pruned. case_guard as Hn; simpl in *.
    + by rewrite Hn.
    + by destruct (CachedImage.needed cached_image).
  - destruct (inner !! key) as [cached_image|] eqn:Hkey; simpl; [|done].
    unfold pruned.
    destruct (CachedImage.needed cached_image) eqn:Hn; [|done].
    exfalso.
    assert (Hin : filter (λ item : KeyFields * CachedImage.t,
                     CachedImage.needed item.2 = true) inner !! key
                  = Some cached_image)
      by (by apply map_lookup_filter_Some).
    by rewrite Hne, lookup_empty in Hin.
Qed.

(** What [reset] does to the map of one ID: it is dropped when no image in
    it is needed, and never left empty. *)
Lemma reset_owner c c' id_key :
  reset c = Some (tt, c') →
  (∀ inner, CachedImageContainer.map_ c' !! id_key = Some inner → inner ≠ ∅)
  ∧ (is_Some (CachedImageContainer.map_ c' !! id_key)
     ↔ ∃ key cached_image,
         CachedImageContainer.entry id_key key c = Some cached_image
         ∧ CachedImage.needed cached_image = true).
Proof.
  intros [= <-]; simpl. split.
  - intros inner. rewrite lookup_fmap_Some.
    intros (inner0 & <- & [_ Hne]%map_lookup_filter_Some); simpl in Hne.
    by rewrite fmap_empty_iff.
  - unfold CachedImageContainer.entry.
    rewrite lookup_fmap, fmap_is_Some. unfold is_Some.
    setoid_rewrite map_lookup_filter_Some. setoid_rewrite lookup_fmap_Some.
    simpl. split.
    + intros (? & (inner & <- & Hinner) & Hne).
      apply map_choose in Hne as (key & cached_image & Hkey).
      apply map_lookup_filter_Some in Hkey as [Hkey Hn].
      exists key, cached_image. by rewrite Hinner.
    + intros (key & cached_image & Hkey & Hn).
      destruct (CachedImageContainer.map_ c !! id_key) as [inner|]; [|done].
      simpl in Hkey. eexists; split; [by eexists|].
      intros Hempty.
      assert (Hin : filter (λ item : KeyFields * CachedImage.t,
                       CachedImage.needed item.2 = true) inner !! key
                    = Some cached_image)
        by (by apply map_lookup_filter_Some).
      by rewrite Hempty, lookup_empty in Hin.
Qed.

(** What a [get] that returns has done: it returns the result of the image
    it found, or of the one it constructed; that image is cached with
    [needed] set; every other cached image is as [kept] says. *)
Lemma get_inv context image image_user pass_name c r c' :
  get context (Some image) (Some image_user) pass_name c = Some (r, c') →
  ∃ cached_image,
    match found context image image_user pass_name c with
    | Some hit =>
        cached_image = hit
        ∧ CachedImageContainer.constructed c'
          = CachedImageContainer.constructed c
    | None =>
        CachedImage_new context image
          (BKE_image_user_frame_calc image image_user
             (Context.get_frame_number context)) pass_name
        = Some cached_image
        ∧ CachedImageContainer.constructed c'
          = S (CachedImageContainer.constructed c)
    end
    ∧ r = CachedImage.result cached_image
    ∧ CachedImageContainer.entry (id_key_of image)
        (key_of context image image_user pass_name) c'
      = Some (CachedImage.set_needed true cached_image)
    ∧ ∀ id_key key,
        (id_key, key)
        ≠ (id_key_of image,
           key_of context image image_user pass_name) →
        CachedImageContainer.entry id_key key c'
        = kept context image id_key c key.
Proof.
  unfold get, found, kept, CachedImageContainer.entry.
  fold (id_key_of image). fold (key_of context image image_user pass_name).
  set (key := key_of _ _ _ _).
  destruct (recalc_requested context image) eqn:Hre;
    [|destruct (CachedImageContainer.map_ c !! id_key_of image)
        as [inner|] eqn:Hinner; simpl];
    rewrite ?lookup_empty; simpl;
    [ | destruct (inner !! key) as [hit|] eqn:Hkey; simpl | ];
    try (destruct (CachedImage_new _ _ _ _) as [built|]; simpl; [|done]);
    intros [= <- <-]; eexists; get_inv_case Hinner.
Qed.

(** [get] returns unless it has to construct and the constructor does
    not. *)
Lemma get_returns context image image_user pass_name c :
  (found context image image_user pass_name c = None →
   is_Some (CachedImage_new context image
              (BKE_image_user_frame_calc image image_user
                 (Context.get_frame_number context)) pass_name)) →
  is_Some (get context (Some image) (Some image_user) pass_name c).
Proof.
  unfold get, found, CachedImageContainer.entry.
  fold (id_key_of image). fold (key_of context image image_user pass_name).
  set (key := key_of _ _ _ _).
  destruct (recalc_requested context image).
  - rewrite lookup_empty. intros [cached_image ->]; [done|]. by eexists.
  - destruct (CachedImageContainer.map_ c !! id_key_of image) as [inner|];
      simpl.
    + destruct (inner !! key) as [hit|]; simpl; [by eexists|].
      intros [cached_image ->]; [done|]. by eexists.
    + rewrite lookup_empty. intros [cached_image ->]; [done|]. by eexists.
Qed.

(** A [get] that finds nothing cached does what the constructor does: it
    fails when the constructor dereferences a null pointer, and caches and
    returns what the constructor made otherwise. *)
Lemma get_miss context image image_user pass_name c :
  found context image image_user pass_name c = None →
  get context (Some image) (Some image_user) pass_name c
  = cached_image ←
      CachedImage_new context image
        (BKE_image_user_frame_calc image image_user
           (Context.get_frame_number context)) pass_name;
    Some (CachedImage.result cached_image,
          CachedImageContainer.make
            (<[id_key_of image :=
                 <[key_of context image image_user pass_name :=
                     CachedImage.set_needed true cached_image]>
                   (if recalc_requested context image then ∅
                    else default ∅ (CachedImageContainer.map_ c
                                    !! id_key_of image))]>
               (CachedImageContainer.map_ c))
            (S (CachedImageContainer.constructed c))).
Proof.
  unfold get, found, CachedImageContainer.entry.
  fold (id_key_of image). fold (key_of context image image_user pass_name).
  destruct (recalc_requested context image).
  - intros _. rewrite lookup_empty. simpl.
    by destruct (CachedImage_new _ _ _ _).
  - destruct (CachedImageContainer.map_ c !! id_key_of image) as [inner|];
      simpl.
    + intros ->. simpl. by destruct (CachedImage_new _ _ _ _).
    + intros _. rewrite lookup_empty. simpl.
      by destruct (CachedImage_new _ _ _ _).
Qed.

(** The key of a request depends on the context through the frame number
    only. *)
Lemma key_of_same_frame context context' image image_user pass_name :
  Context.get_frame_number context' = Context.get_frame_number context →
  key_of context' image image_user pass_name
  = key_of context image image_user pass_name.
Proof. unfold key_of. by intros ->. Qed.

(** [get_each] makes the first call, then the others. *)
Lemma get_each_cons context contexts image image_user pass_name c :
  get_each (context :: contexts) image image_user pass_name c
  = match get context image image_user pass_name c with
    | Some (r, c1) =>
        match get_each contexts image image_user pass_name c1 with
        | Some (rs, c') => Some (r :: rs, c')
        | None => None
        end
    | None => None
    end.
Proof.
  simpl. unfold mbind, Call_bind.
  destruct (get context image image_user pass_name c) as [[r c1]|]; [|done].
  by destruct (get_each contexts image image_user pass_name c1) as [[rs c']|].
Qed.

(** Calls of one evaluation for an image that is cached return its result
    and do not run the constructor. *)
Lemma get_each_cached context contexts image image_user pass_name c hit :
  Forall (same_pass context image) contexts →
  CachedImageContainer.entry (id_key_of image)
    (key_of context image image_user pass_name) c
  = Some hit →
  ∃ c' hit',
    get_each contexts (Some image) (Some image_user) pass_name c
    = Some (replicate (length contexts) (CachedImage.result hit), c')
    ∧ CachedImageContainer.constructed c' = CachedImageContainer.constructed c
    ∧ CachedImageContainer.entry (id_key_of image)
        (key_of context image image_user pass_name) c'
      = Some hit'
    ∧ CachedImage.result hit' = CachedImage.result hit.
Proof.
  intros Hall. revert c hit.
  induction Hall as [|context' contexts [Hframe Hre] _ IH]; intros c hit Hhit.
  - exists c, hit. by repeat split.
  - assert (Hfound : found context' image image_user pass_name c = Some hit).
    { unfold found. rewrite Hre.
      by rewrite (key_of_same_frame context context'). }
    destruct (get_returns context' image image_user pass_name c)
      as [[r c1] Hget]; [by rewrite Hfound|].
    destruct (get_inv _ _ _ _ _ _ _ Hget)
      as (cached_image & Hcase & -> & Hentry & _).
    rewrite Hfound in Hcase. destruct Hcase as [-> Hcount].
    rewrite (key_of_same_frame context context') in Hentry by done.
    destruct (IH c1 _ Hentry) as (c' & hit' & Heach & Hcount' & Hentry' & Hres).
    exists c', hit'. rewrite get_each_cons, Hget, Heach.
    repeat split; try done. congruence.
Qed.

(** After [reset] no cached image is marked needed. *)
Lemma reset_leaves_unneeded c c' id_key key cached_image :
  reset c = Some (tt, c') →
  CachedImageContainer.entry id_key key c' = Some cached_image →
  CachedImage.needed cached_image = false.
Proof.
  intros Hreset. rewrite (reset_entry _ _ _ _ Hreset).
  destruct (CachedImageContainer.entry id_key key c) as [before|]; [|done].
  unfold pruned; simpl. destruct (CachedImage.needed before); [|done].
  by intros [= <-].
Qed.


(** When the first call finds the image cached, the constructor does not
    run at all. *)
Lemma get_each_cached_constructs_none context contexts image image_user
    pass_name c hit :
  found context image image_user pass_name c = Some hit →
  Forall (same_pass context image) contexts →
  ∃ c',
    get_each (context :: contexts) (Some image) (Some image_user) pass_name c
    = Some (replicate (S (length contexts)) (CachedImage.result hit), c')
    ∧ CachedImageContainer.constructed c'
      = CachedImageContainer.constructed c.
Proof.
  intros Hhit Hall.
  destruct (get_returns context image image_user pass_name c)
    as [[r c1] Hget]; [by rewrite Hhit|].
  destruct (get_inv _ _ _ _ _ _ _ Hget)
    as (cached_image & Hcase & -> & Hentry & _).
  rewrite Hhit in Hcase. destruct Hcase as [-> Hcount].
  destruct (get_each_cached _ _ _ _ _ _ _ Hall Hentry)
    as (c' & hit' & Heach & Hcount' & _).
  exists c'. rewrite get_each_cons, Hget, Heach. split; [done|congruence].
Qed.

(** C2.  [reset] returns, and of every cached image it leaves exactly what
    [pruned] says: nothing of an image that is not needed, the image with
    [needed] false otherwise; no ID is left with an empty map, and an ID
    stays exactly when one of its images was needed.  Consequently, for two
    different requests A and B: once A and B are requested in one
    evaluation, B is cached; after [reset], a next evaluation that requests
    A only, and [reset] again, B has no cached image, and a later [get] for
    B runs the constructor. *)
Theorem reset_prunes_unneeded c :
  ∃ c',
    reset c = Some (tt, c')
    ∧ CachedImageContainer.constructed c' = CachedImageContainer.constructed c
    ∧ (∀ id_key key,
         CachedImageContainer.entry id_key key c'
         = CachedImageContainer.entry id_key key c ≫= pruned)
    ∧ (∀ id_key inner,
         CachedImageContainer.map_ c' !! id_key = Some inner → inner ≠ ∅)
    ∧ (∀ id_key,
         is_Some (CachedImageContainer.map_ c' !! id_key)
         ↔ ∃ key cached_image,
             CachedImageContainer.entry id_key key c = Some cached_image
             ∧ CachedImage.needed cached_image = true)
    ∧ (∀ context1 context2 context3 imageA image_userA pass_nameA
         imageB image_userB pass_nameB,
         (id_key_of imageA,
          key_of context2 imageA image_userA pass_nameA)
         ≠ (id_key_of imageB,
            key_of context3 imageB image_userB pass_nameB) →
         constructible context1 imageA image_userA pass_nameA →
         constructible context1 imageB image_userB pass_nameB →
         constructible context2 imageA image_userA pass_nameA →
         constructible context3 imageB image_userB pass_nameB →
         ∃ rB c1 c2,
           (get context1 (Some imageA) (Some image_userA) pass_nameA;;
            get context1 (Some imageB) (Some image_userB) pass_nameB) c
           = Some (rB, c1)
           ∧ is_Some (CachedImageContainer.entry (id_key_of imageB)
                        (key_of context1 imageB image_userB pass_nameB) c1)
           ∧ (reset;;
              get context2 (Some imageA) (Some image_userA) pass_nameA;;
              reset) c1
             = Some (tt, c2)
           ∧ CachedImageContainer.entry (id_key_of imageB)
               (key_of context3 imageB image_userB pass_nameB) c2
             = None
           ∧ ∃ r c3,
               get context3 (Some imageB) (Some image_userB) pass_nameB c2
               = Some (r, c3)
               ∧ CachedImageContainer.constructed c3
                 = S (CachedImageContainer.constructed c2)).
Proof.
  eexists. split; [reflexivity|]. split; [reflexivity|].
  split; [intros; by apply reset_entry|].
  split; [intros id_key; by apply (reset_owner c)|].
  split; [intros id_key; by apply (reset_owner c)|].
  intros context1 context2 context3 imageA image_userA pass_nameA
    imageB image_userB pass_nameB Hne HA1 HB1 HA2 HB3.
  destruct (get_returns context1 imageA image_userA pass_nameA c)
    as [[rA ca] HgetA]; [done|].
  destruct (get_returns context1 imageB image_userB pass_nameB ca)
    as [[rB cb] HgetB]; [done|].
  destruct (reset cb) as [[[] cr]|] eqn:Hreset1; [|done].
  destruct (get_returns context2 imageA image_userA pass_nameA cr)
    as [[rA2 ca2] HgetA2]; [done|].
  destruct (reset ca2) as [[[] c2]|] eqn:Hreset2; [|done].
  assert (Habsent :
    CachedImageContainer.entry (id_key_of imageB)
      (key_of context3 imageB image_userB pass_nameB)
      c2 = None).
  { rewrite (reset_entry _ _ _ _ Hreset2).
    destruct (get_inv _ _ _ _ _ _ _ HgetA2) as (_ & _ & _ & _ & Hkept).
    rewrite Hkept by congruence. unfold kept.
    destruct (CachedImageContainer.entry (id_key_of imageB) _ cr)
      as [old|] eqn:Hold.
    - apply (reset_leaves_unneeded _ _ _ _ _ Hreset1) in Hold.
      unfold pruned.
      by repeat case_match; simplify_eq; simpl; rewrite ?Hold.
    - by repeat case_match. }
  exists rB, cb, c2. split.
  { unfold mbind, Call_bind. by rewrite HgetA, HgetB. }
  split.
  { destruct (get_inv _ _ _ _ _ _ _ HgetB) as (built & _ & _ & -> & _).
    by eexists. }
  split.
  { unfold mbind, Call_bind. by rewrite Hreset1, HgetA2, Hreset2. }
  split; [done|].
  assert (Hmiss : found context3 imageB image_userB pass_nameB c2 = None).
  { unfold found. rewrite Habsent. by destruct (recalc_requested _ _). }
  destruct (get_returns context3 imageB image_userB pass_nameB c2)
    as [[r c3] HgetB3]; [done|].
  exists r, c3. split; [done|].
  destruct (get_inv _ _ _ _ _ _ _ HgetB3) as (built & Hcase & _).
  rewrite Hmiss in Hcase. by destruct Hcase.
Qed.

(** C3.  When the recalculate flag the context reports for the image ID has
    a bit of [ID_RECALC_ALL] set, [get] empties the map of that ID before it
    looks the key up: whatever the container holds, also the requested
    image, the constructor runs, its result is returned, and the image it
    made is the only one the ID is left with. *)
Theorem get_recalc_constructs_anew context image image_user pass_name c :
  Z.land (Context.query_id_recalc_flag context (Image.id image)) ID_RECALC_ALL
  ≠ 0 →
  get context (Some image) (Some image_user) pass_name c
  = cached_image ←
      CachedImage_new context image
        (BKE_image_user_frame_calc image image_user
           (Context.get_frame_number context)) pass_name;
    Some (CachedImage.result cached_image,
          CachedImageContainer.make
            (<[id_key_of image :=
                 {[ key_of context image image_user pass_name
                    := CachedImage.set_needed true cached_image ]}]>
               (CachedImageContainer.map_ c))
            (S (CachedImageContainer.constructed c))).
Proof.
  intros Hflag.
  assert (Hre : recalc_requested context image = true).
  { unfold recalc_requested. by apply negb_true_iff, Z.eqb_neq. }
  rewrite get_miss by (unfold found; by rewrite Hre).
  by rewrite Hre.
Qed.

(** X20.  When the image yields no buffer for the image user of the request,
    at the acquisition the constructor validates the image with, the
    constructor still returns: a [get] that finds nothing cached returns
    the result fresh from [Result(context)], which holds no data, and caches
    it; the later calls of the evaluation return that same result and do
    not run the constructor again. *)
Theorem get_caches_empty_result context image image_user pass_name c :
  found context image image_user pass_name c = None →
  BKE_image_acquire_ibuf image
    (BKE_image_user_frame_calc image image_user
       (Context.get_frame_number context))
  = None →
  ∃ c',
    get context (Some image) (Some image_user) pass_name c
    = Some (Result_new context, c')
    ∧ Result.is_allocated (Result_new context) = false
    ∧ (CachedImage.result
         <$> CachedImageContainer.entry (id_key_of image)
               (key_of context image image_user pass_name) c')
      = Some (Result_new context)
    ∧ ∀ contexts,
        Forall (same_pass context image) contexts →
        ∃ c'',
          get_each contexts (Some image) (Some image_user) pass_name c'
          = Some (replicate (length contexts) (Result_new context), c'')
          ∧ CachedImageContainer.constructed c''
            = CachedImageContainer.constructed c'.
Proof.
  intros Hmiss Hnone.
  assert (Hnew :
    CachedImage_new context image
      (BKE_image_user_frame_calc image image_user
         (Context.get_frame_number context)) pass_name
    = Some (CachedImage.make (Result_new context) None
              CachedResource_needed)).
  { unfold CachedImage_new. by rewrite Hnone. }
  destruct (get_returns context image image_user pass_name c)
    as [[r c'] Hget]; [by rewrite Hnew|].
  destruct (get_inv _ _ _ _ _ _ _ Hget)
    as (built & Hcase & -> & Hentry & _).
  rewrite Hmiss in Hcase. destruct Hcase as [Hbuilt _].
  rewrite Hnew in Hbuilt. injection Hbuilt as <-.
  exists c'. split; [done|]. split; [done|].
  split; [by rewrite Hentry|].
  intros contexts Hall.
  destruct (get_each_cached _ _ _ _ _ _ _ Hall Hentry)
    as (c'' & _ & Heach & Hcount & _).
  by exists c''.
Qed.

(** C4 (the code at the input where it departs from the claim).  Image_A
    yields a buffer for the image user of the request, which passes the
    validation of the constructor, and none for the image user of its
    Vector pass: the constructor reads the null buffer, and [get] for the
    Vector pass does not return, rather than return the empty result. *)
Theorem get_dereferences_null_pass_buffer :
  BKE_image_acquire_ibuf (Env := Scene.unbuffered_pass) Demo.image_a
    (ImageUser.make 5 0 0 0 0)
  = Some Demo.buffer
  ∧ (compute_image_user_for_pass (H := Scene.unbuffered_pass)
       (Demo.context 5 0) Demo.image_a (ImageUser.make 5 0 0 0 0) "Vector"
     ≫= BKE_image_acquire_ibuf (Env := Scene.unbuffered_pass) Demo.image_a)
    = None
  ∧ get (H := Scene.unbuffered_pass) (Demo.context 5 0) (Some Demo.image_a)
      (Some Demo.image_user) "Vector" CachedImageContainer.empty
    = None.
Proof. by vm_compute. Qed.

(** C10.  With a null image or a null image user, [get] returns the result
    fresh from [Result(context)] and leaves the container as it was: the
    map and the count of constructor runs are those it was called on. *)
Theorem get_null_leaves_container context image image_user pass_name c :
  get context None image_user pass_name c = Some (Result_new context, c)
  ∧ get context image None pass_name c = Some (Result_new context, c)
  ∧ Result.is_allocated (Result_new context) = false.
Proof.
  split; [done|]. split; [|done]. by destruct image.
Qed.

End CacheProperties.

(** * The container on the small scene *)

(** The first request of the Combined pass of Image_A at frame 5. *)
Example Demo_get_first :
  get (H := Demo.env) (Demo.context 5 0) (Some Demo.image_a)
    (Some Demo.image_user) "Combined" CachedImageContainer.empty
  = Some (CachedImage.result Demo.combined_a, Demo.after_first_get).
Proof. vm_compute. reflexivity. Qed.



(** A call with the recalculate flag set, on a container that holds the
    requested image. *)
Lemma get_recalc_constructs_anew_witness :
  get (H := Demo.env) (Demo.context 5 1) (Some Demo.image_a)
    (Some Demo.image_user) "Combined" Demo.after_first_get
  = Some (CachedImage.result Demo.combined_a,
          CachedImageContainer.make
            {[ "IMImage_ALILibX" := {[ (5, 0, 0, "Combined") := Demo.combined_a ]} ]}
            2).
Proof.
  rewrite (get_recalc_constructs_anew (H := Demo.env) (Demo.context 5 1)
             Demo.image_a Demo.image_user "Combined" Demo.after_first_get).
  - vm_compute. reflexivity.
  - vm_compute. discriminate.
Defined.

(** A call for an image that yields no buffer. *)
Lemma get_caches_empty_result_witness :
  ∃ c',
    get (H := Demo.env) (Demo.context 5 0) (Some Demo.missing)
      (Some Demo.image_user) "Combined" Demo.after_first_get
    = Some (Result_new (H := Demo.env) (Demo.context 5 0), c')
    ∧ Result.is_allocated (Result_new (H := Demo.env) (Demo.context 5 0))
      = false
    ∧ (CachedImage.result
         <$> CachedImageContainer.entry "IMMissing" (5, 0, 0, "Combined") c')
      = Some (Result_new (H := Demo.env) (Demo.context 5 0))
    ∧ ∀ contexts,
        Forall (same_pass (H := Demo.env) (Demo.context 5 0) Demo.missing)
               contexts →
        ∃ c'',
          get_each (H := Demo.env) contexts (Some Demo.missing)
            (Some Demo.image_user) "Combined" c'
          = Some (replicate (length contexts)
                    (Result_new (H := Demo.env) (Demo.context 5 0)), c'')
          ∧ CachedImageContainer.constructed c''
            = CachedImageContainer.constructed c'.
Proof.
  apply (get_caches_empty_result (H := Demo.env) (Demo.context 5 0)
           Demo.missing Demo.image_user "Combined" Demo.after_first_get).
  - reflexivity.
  - reflexivity.
Defined.

(** The scenario of C2 for the Combined and the Vector pass of Image_A. *)
Lemma reset_prunes_unneeded_witness :
  ∃ rB c1 c2,
    (get (H := Demo.env) (Demo.context 5 0) (Some Demo.image_a)
       (Some Demo.image_user) "Combined";;
     get (H := Demo.env) (Demo.context 5 0) (Some Demo.image_a)
       (Some Demo.image_user) "Vector") CachedImageContainer.empty
    = Some (rB, c1)
    ∧ is_Some (CachedImageContainer.entry "IMImage_ALILibX"
                 (5, 0, 0, "Vector") c1)
    ∧ (reset;;
       get (H := Demo.env) (Demo.context 5 0) (Some Demo.image_a)
         (Some Demo.image_user) "Combined";;
       reset) c1
      = Some (tt, c2)
    ∧ CachedImageContainer.entry "IMImage_ALILibX" (5, 0, 0, "Vector") c2
      = None
    ∧ ∃ r c3,
        get (H := Demo.env) (Demo.context 5 0) (Some Demo.image_a)
          (Some Demo.image_user) "Vector" c2
        = Some (r, c3)
        ∧ CachedImageContainer.constructed c3
          = S (CachedImageContainer.constructed c2).
Proof.
  destruct (reset_prunes_unneeded (H := Demo.env) CachedImageContainer.empty)
    as (c' & _ & _ & _ & _ & _ & Hscenario).
  apply (Hscenario (Demo.context 5 0) (Demo.context 5 0) (Demo.context 5 0)
           Demo.image_a Demo.image_user "Combined"
           Demo.image_a Demo.image_user "Vector").
  - discriminate.
  - vm_compute. eexists. reflexivity.
  - vm_compute. eexists. reflexivity.
  - vm_compute. eexists. reflexivity.
  - vm_compute. eexists. reflexivity.
Defined.

(** The scenario of the specification, for the Combined pass of Image_A of
    library LibX: the first [get] at frame 5 runs the constructor, the
    second returns the same result without running it; after [reset], a
    [get] at frame 6 runs it again, and the [reset] that follows drops the
    image of frame 5 and keeps that of frame 6. *)
Example get_reset_scenario :
  let request frame :=
    get (H := Demo.env) (Demo.context frame 0) (Some Demo.image_a)
      (Some Demo.image_user) "Combined" in
  let cached frame c :=
    bool_decide (is_Some (CachedImageContainer.entry "IMImage_ALILibX"
                            (frame, 0, 0, "Combined") c)) in
  fst <$>
    (r1 ← request 5; c1 ← container;
     r2 ← request 5; c2 ← container;
     reset;;
     request 6;; c3 ← container;
     reset;; c4 ← container;
     mret (r1, r2,
           CachedImageContainer.constructed <$> [c1; c2; c3],
           [cached 5 c3; cached 5 c4; cached 6 c4]))
      CachedImageContainer.empty
  = Some (CachedImage.result Demo.combined_a,
          CachedImage.result Demo.combined_a,
          [1; 1; 2]%nat, [true; false; true]).
Proof. vm_compute. reflexivity. Qed.
(** * Properties of the utilities *)

Section OriginProperties.
Context `{Links}.

(** Of the origins the traversal visits, [get_input_origin_socket] keeps the
    one visited last; it is left with the null socket when a linked input
    has none. *)
Lemma get_input_origin_socket_last (input : DSocket.ref) :
  is_logically_linked input = true →
  get_input_origin_socket input
  = default DSocket.null (last (origin_sockets input)).
Proof.
  intros Hlinked. unfold get_input_origin_socket, foreach_origin_socket.
  rewrite Hlinked; simpl. generalize DSocket.null.
  induction (origin_sockets input) as [|origin origins IH]; intros socket;
    [done|].
  simpl. rewrite IH, last_cons. by destruct (last origins).
Qed.

Lemma get_output_linked_to_input_unlinked (input : DSocket.ref) :
  bNodeSocket.is_input (DSocket.bsocket input) = true →
  is_logically_linked input = false →
  get_output_linked_to_input input = Some DSocket.null.
Proof.
  intros Hin Hunlinked. unfold get_output_linked_to_input,
    get_input_origin_socket.
  rewrite Hunlinked; simpl. by rewrite Hin.
Qed.

Lemma get_output_linked_to_input_single (input output : DSocket.ref) :
  bNodeSocket.is_input (DSocket.bsocket output) = false →
  is_logically_linked input = true →
  origin_sockets input = [Some output] →
  get_output_linked_to_input input = Some (Some output).
Proof.
  intros Hout Hlinked Horigins. unfold get_output_linked_to_input.
  rewrite get_input_origin_socket_last, Horigins by done. simpl.
  by rewrite Hout.
Qed.

End OriginProperties.

(** Through any boundaries, a chain has the one origin it ends in. *)
Lemma origins_of_chain boundaries output :
  origins_of (chain boundaries output) = [Some output].
Proof.
  induction boundaries as [|boundary boundaries IH]; simpl; [done|].
  by rewrite IH.
Qed.

(** C6.  In a tree whose links are traversed as the spec describes: for an
    input in which no link ends, [get_input_origin_socket] returns the input
    itself and [get_output_linked_to_input] the null output socket; for an
    input whose one link leads through any boundaries, however many, to an
    output, [get_output_linked_to_input] returns that output. *)
Theorem get_output_linked_to_input_resolves links_into targets
    (input output : DSocket.ref) :
  (bNodeSocket.is_input (DSocket.bsocket input) = true →
   links_into input = [] →
   get_input_origin_socket (H := links_traversed links_into targets) input
   = Some input
   ∧ get_output_linked_to_input (H := links_traversed links_into targets) input
     = Some DSocket.null)
  ∧ (∀ boundaries,
       bNodeSocket.is_input (DSocket.bsocket output) = false →
       links_into input = [chain boundaries output] →
       get_output_linked_to_input (H := links_traversed links_into targets)
         input
       = Some (Some output)).
Proof.
  split.
  - intros Hin Hnone. split.
    + unfold get_input_origin_socket; simpl. by rewrite Hnone.
    + apply get_output_linked_to_input_unlinked; [done|].
      simpl. by rewrite Hnone.
  - intros boundaries Hout Hlink.
    apply get_output_linked_to_input_single; [done|..]; simpl;
      rewrite Hlink; [done|].
    simpl. by rewrite origins_of_chain, app_nil_r.
Qed.

(** C7.  [get_node_socket_result_type] depends on the declared type of the
    socket only.  In a release build it returns for every socket, one of
    Float, Int, Vector and Color; a declared type other than the four it
    names makes a debug build fail its assertion and a release build return
    Float. *)
Theorem get_node_socket_result_type_total (socket : bNodeSocket.t) :
  (∀ build socket',
     bNodeSocket.type socket' = bNodeSocket.type socket →
     get_node_socket_result_type build socket'
     = get_node_socket_result_type build socket)
  ∧ (∃ result_type,
       get_node_socket_result_type Release socket = Some result_type
       ∧ result_type ∈ [Float; Int; Vector; Color])
  ∧ (∀ build,
       match bNodeSocket.type socket with
       | SOCK_FLOAT => get_node_socket_result_type build socket = Some Float
       | SOCK_INT => get_node_socket_result_type build socket = Some Int
       | SOCK_VECTOR => get_node_socket_result_type build socket = Some Vector
       | SOCK_RGBA => get_node_socket_result_type build socket = Some Color
       | SOCK_other _ =>
           get_node_socket_result_type build socket
           = match build with Debug => None | Release => Some Float end
       end).
Proof.
  split; [|split].
  - intros build socket' Htype. unfold get_node_socket_result_type.
    by rewrite Htype.
  - unfold get_node_socket_result_type.
    destruct (bNodeSocket.type socket); eexists; (split; [reflexivity|]);
      rewrite !elem_of_cons; auto.
  - intros build. unfold get_node_socket_result_type.
    by destruct (bNodeSocket.type socket), build.
Qed.

Section UtilitiesProperties.
Context `{Links}.

(** The iteration of [is_output_linked_to_node_conditioned], from any state
    of what its callback captures. *)
Lemma is_output_linked_fold (condition : DNode.t → bool) targets
    condition_satisfied called :
  foldl (λ s (target : DSocket.ref * TargetSocketPathInfo),
           (λ '(condition_satisfied, called),
              let called := called ++ [DSocket.node target.1] in
              if condition (DSocket.node target.1) then (true, called)
              else (condition_satisfied, called)) s)
        (condition_satisfied, called) targets
  = (condition_satisfied
     || existsb condition (DSocket.node ∘ fst <$> targets),
     called ++ (DSocket.node ∘ fst <$> targets)).
Proof.
  revert condition_satisfied called.
  induction targets as [|target targets IH]; intros condition_satisfied called.
  - simpl. by rewrite orb_false_r, app_nil_r.
  - simpl. destruct (condition (DSocket.node target.1)); rewrite IH; simpl.
    + by rewrite orb_true_r, <-app_assoc.
    + by rewrite <-app_assoc.
Qed.

(** The result of [is_output_linked_to_node_conditioned] is whether the node
    of some target satisfies the condition, and the condition is called on
    the node of every target, a satisfied call or not. *)
Lemma is_output_linked_to_node_conditioned_all output condition :
  is_output_linked_to_node_conditioned output condition
  = (existsb condition (DSocket.node ∘ fst <$> target_sockets output),
     DSocket.node ∘ fst <$> target_sockets output).
Proof.
  unfold is_output_linked_to_node_conditioned, foreach_target_socket.
  by rewrite is_output_linked_fold.
Qed.

End UtilitiesProperties.

(** C9.  [is_node_preview_needed] holds exactly when the preview bit of the
    node flag is set, the hidden bit is not, and the instance key of the
    context of the node is that of the active context; it is false as soon
    as one of the three fails. *)
Theorem is_node_preview_needed_iff NODE_PREVIEW NODE_HIDDEN (node : DNode.t) :
  (is_node_preview_needed NODE_PREVIEW NODE_HIDDEN node = true
   ↔ Z.land (bNode.flag (DNode.bnode node)) NODE_PREVIEW ≠ 0
     ∧ Z.land (bNode.flag (DNode.bnode node)) NODE_HIDDEN = 0
     ∧ DTreeContext.instance_key (DNode.context node)
       = DTreeContext.active_context_instance_key (DNode.context node))
  ∧ (is_node_preview_needed NODE_PREVIEW NODE_HIDDEN node = false
     ↔ Z.land (bNode.flag (DNode.bnode node)) NODE_PREVIEW = 0
       ∨ Z.land (bNode.flag (DNode.bnode node)) NODE_HIDDEN ≠ 0
       ∨ DTreeContext.instance_key (DNode.context node)
         ≠ DTreeContext.active_context_instance_key (DNode.context node)).
Proof.
  unfold is_node_preview_needed.
  destruct (Z.eqb_spec (Z.land (bNode.flag (DNode.bnode node)) NODE_PREVIEW) 0);
  destruct (Z.eqb_spec (Z.land (bNode.flag (DNode.bnode node)) NODE_HIDDEN) 0);
  destruct (Z.eqb_spec (DTreeContext.instance_key (DNode.context node))
              (DTreeContext.active_context_instance_key (DNode.context node)));
  simpl; intuition congruence.
Qed.

(** C8 (the code at the input where it departs from the claim).  The Image
    output has two targets, in the Blur node and in the Viewer node, and the
    condition holds of the Blur node only: the result is true, and the
    condition has been called on the Viewer node after the call that was
    satisfied. *)
Theorem is_output_linked_calls_condition_past_match :
  is_output_linked_to_node_conditioned (H := Demo.links) Demo.image_out
    Demo.is_blur
  = (true,
     [DNode.make Demo.root Demo.blur_node;
      DNode.make Demo.root Demo.viewer_node]).
Proof. reflexivity. Qed.

(** The unlinked Size input of the Blur node, and the input of the Viewer
    node behind its two reroutes. *)
Lemma get_output_linked_to_input_resolves_witness :
  get_output_linked_to_input (H := Demo.links) Demo.blur_size
  = Some DSocket.null
  ∧ get_output_linked_to_input (H := Demo.links) Demo.viewer_in
    = Some (Some Demo.image_out).
Proof.
  split.
  - apply (get_output_linked_to_input_resolves Demo.links_into Demo.targets
             Demo.blur_size Demo.image_out); reflexivity.
  - apply (proj2 (get_output_linked_to_input_resolves Demo.links_into
                    Demo.targets Demo.viewer_in Demo.image_out)
             Demo.reroutes); reflexivity.
Defined.

(** With the bits of [DNA_node_types.h]: a node that asks for a preview in
    the active context needs one, and no more once it is hidden, stops
    asking, or sits in another context. *)
Example is_node_preview_needed_flips :
  let node flag key := DNode.make (DTreeContext.make key 7)
                                  (bNode.make "Blur" flag) in
  is_node_preview_needed 4 8 (node 4 7) = true
  ∧ is_node_preview_needed 4 8 (node 12 7) = false
  ∧ is_node_preview_needed 4 8 (node 0 7) = false
  ∧ is_node_preview_needed 4 8 (node 4 3) = false.
Proof. by repeat split. Qed.

(** * Further properties of the cached image *)

(** ** Indices of views and passes *)

(** [BLI_findstringindex] answers [-1] when no link has the name, and the
    position of the first link that has it otherwise. *)
Lemma BLI_findstringindex_cases {A} (name_of : A → string) (l : list A)
    (name : string) :
  let i := BLI_findstringindex name_of l name in
  (i = -1 ∧ ∀ a, a ∈ l → name_of a ≠ name)
  ∨ (0 ≤ i
     ∧ ∃ a, l !! Z.to_nat i = Some a ∧ name_of a = name
            ∧ ∀ j b, (j < Z.to_nat i)%nat → l !! j = Some b →
                     name_of b ≠ name).
Proof.
  induction l as [|a l IH]; simpl.
  - left. split; [done|]. intros a Ha. by apply elem_of_nil in Ha.
  - case_bool_decide as Ha.
    + right. split; [done|]. exists a. repeat split; try done.
      intros j b Hj. simpl in Hj. lia.
    + destruct IH as [[Hi Hnone]|(Hi & b & Hb & Hname & Hfirst)].
      * left. rewrite Hi. simpl. split; [done|].
        intros a' [->|Hin]%elem_of_cons; auto.
      * right. destruct (Z.eqb_spec (BLI_findstringindex name_of l name) (-1));
          [lia|].
        split; [lia|]. exists b.
        replace (Z.to_nat (BLI_findstringindex name_of l name + 1))
          with (S (Z.to_nat (BLI_findstringindex name_of l name))) by lia.
        repeat split; try done.
        intros [|j] b' Hj Hb'; simpl in Hb'.
        -- by injection Hb' as <-.
        -- apply (Hfirst j b'); [lia|done].
Qed.

Section Indices.
Context `{Env}.

(** [BLI_findstringindex] answers the position of the first link that has
    the name. *)
Lemma BLI_findstringindex_first {A} (name_of : A → string) (l : list A)
    (name : string) (index : nat) (a : A) :
  l !! index = Some a →
  name_of a = name →
  (∀ j b, (j < index)%nat → l !! j = Some b → name_of b ≠ name) →
  BLI_findstringindex name_of l name = Z.of_nat index.
Proof.
  intros Hat Hname Hfirst.
  destruct (BLI_findstringindex_cases name_of l name)
    as [[_ Hnone]|(Hpos & b & Hb & Hbname & Hbfirst)].
  - exfalso. apply (Hnone a); [|done]. by apply list_elem_of_lookup_2 in Hat.
  - destruct (lt_eq_lt_dec
                (Z.to_nat (BLI_findstringindex name_of l name)) index)
      as [[Hlt|Heq]|Hgt].
    + exfalso. by apply (Hfirst _ b Hlt).
    + lia.
    + exfalso. by apply (Hbfirst _ a Hgt).
Qed.

(** X1.  [get_view_index] is 0 for an image that is not multi-view, and
    dereferences the null render result of a multi-view image that has
    none.  With a render result, it is 0 when there are fewer than two
    views; else, for a view of the image user other than 0, that view minus
    one; and else, in the mode "All" (view 0), the position of the first
    view that is named like the view being rendered, and 0 when no view is:
    no match never shows as [-1]. *)
Theorem get_view_index_cases context image image_user :
  if BKE_image_is_multiview image then
    match Image.rr image with
    | None => get_view_index context image image_user = None
    | Some rr =>
        if decide (length (RenderResult.views rr) < 2)%nat then
          get_view_index context image image_user = Some 0
        else if decide (ImageUser.view image_user = 0) then
          (∀ index render_view,
             RenderResult.views rr !! index = Some render_view →
             RenderView.name render_view = Context.get_view_name context →
             (∀ j earlier,
                (j < index)%nat →
                RenderResult.views rr !! j = Some earlier →
                RenderView.name earlier ≠ Context.get_view_name context) →
             get_view_index context image image_user
             = Some (Z.of_nat index))
          ∧ ((∀ render_view,
                render_view ∈ RenderResult.views rr →
                RenderView.name render_view
                ≠ Context.get_view_name context) →
             get_view_index context image image_user = Some 0)
        else
          get_view_index context image image_user
          = Some (ImageUser.view image_user - 1)
    end
  else get_view_index context image image_user = Some 0.
Proof.
  unfold get_view_index, BLI_listbase_count_at_most.
  destruct (BKE_image_is_multiview image); simpl; [|done].
  destruct (Image.rr image) as [rr|]; simpl; [|done].
  case_decide as Hfew.
  { by destruct (Z.ltb_spec (Z.of_nat (length (RenderResult.views rr)) `min` 2)
                   2); [|lia]. }
  destruct (Z.ltb_spec (Z.of_nat (length (RenderResult.views rr)) `min` 2) 2);
    [lia|].
  case_decide as Hall.
  - rewrite Hall. simpl. split.
    + intros index render_view Hat Hname Hfirst.
      rewrite (BLI_findstringindex_first _ _ _ index render_view)
        by done.
      destruct (Z.eqb_spec (Z.of_nat index) (-1)); [lia|done].
    + intros Hnone.
      destruct (BLI_findstringindex_cases RenderView.name
                  (RenderResult.views rr) (Context.get_view_name context))
        as [[-> _]|(_ & render_view & Hat & Hname & _)]; [done|].
      exfalso. apply (Hnone render_view); [|done].
      by apply list_elem_of_lookup_2 in Hat.
  - by destruct (Z.eqb_spec (ImageUser.view image_user) 0).
Qed.

(** X2.  [get_pass_index] fails exactly when the image has no render result
    or the layer of the image user is no layer of it.  Otherwise it answers
    [-1] when no pass of that layer has the name, and else an index under
    which [get_render_pass] finds a pass of that name in that layer. *)
Theorem get_pass_index_finds image image_user name :
  match get_pass_index image image_user name with
  | None =>
      Image.rr image = None
      ∨ ∃ rr,
          Image.rr image = Some rr
          ∧ BLI_findlink (RenderResult.layers rr) (ImageUser.layer image_user)
            = None
  | Some index =>
      ∃ render_layer,
        get_render_layer image image_user = Some (Some render_layer)
        ∧ if decide (index = -1) then
            ∀ render_pass,
              render_pass ∈ RenderLayer.passes render_layer →
              RenderPass.name render_pass ≠ name
          else
            ∃ render_pass,
              get_render_pass render_layer
                (ImageUser.set_pass index image_user)
              = Some render_pass
              ∧ RenderPass.name render_pass = name
  end.
Proof.
  unfold get_pass_index, get_render_layer.
  destruct (Image.rr image) as [rr|]; simpl; [|by left].
  destruct (BLI_findlink _ _) as [render_layer|] eqn:Hlayer; simpl;
    [|right; by exists rr].
  exists render_layer. split; [done|].
  pose proof (BLI_findstringindex_cases RenderPass.name
                (RenderLayer.passes render_layer) name) as Hfind.
  simpl in Hfind.
  destruct Hfind as [[-> Hnone]|(Hpos & render_pass & Hat & Hname & _)].
  - by rewrite decide_True.
  - rewrite decide_False by lia. exists render_pass. split; [|done].
    unfold get_render_pass, BLI_findlink; simpl.
    by destruct (Z.ltb_spec (BLI_findstringindex RenderPass.name
                               (RenderLayer.passes render_layer) name) 0);
      [lia|].
Qed.

(** [get_view_index] fails exactly on a multi-view image without a render
    result. *)
Lemma get_view_index_None_iff context image image_user :
  get_view_index context image image_user = None
  ↔ BKE_image_is_multiview image = true ∧ Image.rr image = None.
Proof.
  unfold get_view_index.
  destruct (BKE_image_is_multiview image); simpl;
    [|split; [done|intros [? _]; done]].
  destruct (Image.rr image) as [rr|]; simpl; [|done].
  split; [|intros [_ ?]; done].
  by repeat case_match.
Qed.

(** X3.  [compute_image_user_for_pass] dereferences a null pointer exactly
    when the image is multi-view or multi-layer and has no render result,
    or is multi-layer and the layer of the image user is no layer of its
    render result. *)
Theorem compute_image_user_for_pass_fails_iff context image image_user
    pass_name :
  compute_image_user_for_pass context image image_user pass_name = None
  ↔ (BKE_image_is_multiview image = true ∧ Image.rr image = None)
    ∨ (BKE_image_is_multilayer image = true
       ∧ (Image.rr image = None
          ∨ ∃ rr,
              Image.rr image = Some rr
              ∧ BLI_findlink (RenderResult.layers rr)
                  (ImageUser.layer image_user)
                = None)).
Proof.
  unfold compute_image_user_for_pass.
  pose proof (get_view_index_None_iff context image image_user) as Hview.
  destruct (get_view_index context image image_user) as [index|]; simpl.
  - assert (Hnot : ¬ (BKE_image_is_multiview image = true
                      ∧ Image.rr image = None))
      by (intros Hboth; by apply Hview in Hboth).
    set (image_user_for_pass := ImageUser.set_view _ _).
    destruct (BKE_image_is_multilayer image) eqn:Hlayered; simpl.
    + pose proof (get_pass_index_finds image image_user_for_pass pass_name)
        as Hpass.
      destruct (get_pass_index image image_user_for_pass pass_name)
        as [pass|]; simpl.
      * destruct Hpass as (render_layer & Hlayer & _).
        unfold get_render_layer in Hlayer.
        destruct (Image.rr image) as [rr|]; simpl in *; [|done].
        split; [done|]. intros [[_ ?]|[_ [?|(rr' & [= <-] & Hnone)]]];
          try done.
        injection Hlayer as Hlayer. congruence.
      * split; [|done]. intros _. right. split; [done|].
        destruct Hpass as [?|(rr & ? & ?)]; [by left|right].
        by exists rr.
    + split; [done|]. intros [?|[? _]]; done.
  - split; [|done]. intros _. left. by apply Hview.
Qed.

End Indices.

(** ** The meta data and the result of a cached image *)

Section Constructor.
Context `{Env}.

(** The callback writes the Cryptomatte strings only. *)
Lemma stamp_callback_is_4d_vector cryptomatte_layer_name meta_data entries :
  MetaData.is_4d_vector
    (foldl (stamp_callback cryptomatte_layer_name) meta_data entries)
  = MetaData.is_4d_vector meta_data.
Proof.
  revert meta_data. induction entries as [|[key value] entries IH];
    intros meta_data; simpl; [done|].
  rewrite IH. by repeat case_bool_decide.
Qed.

(** X4.  Of the stamp entries of an image, the last one under the manifest
    key decides the manifest, the last one under the hash key the hash and
    the last one under the conversion key the conversion; a string no entry
    is filed under stays as it was. *)
Theorem stamp_callback_last_wins cryptomatte_layer_name meta_data
    (entries : list (string * string)) :
  let stamped :=
    foldl (stamp_callback cryptomatte_layer_name) meta_data entries in
  let last_under which :=
    last (snd <$> filter
            (λ entry : string * string,
               entry.1
               = BKE_cryptomatte_meta_data_key cryptomatte_layer_name which)
            entries) in
  Cryptomatte.manifest (MetaData.cryptomatte stamped)
  = default (Cryptomatte.manifest (MetaData.cryptomatte meta_data))
            (last_under "manifest")
  ∧ Cryptomatte.hash (MetaData.cryptomatte stamped)
    = default (Cryptomatte.hash (MetaData.cryptomatte meta_data))
              (last_under "hash")
  ∧ Cryptomatte.conversion (MetaData.cryptomatte stamped)
    = default (Cryptomatte.conversion (MetaData.cryptomatte meta_data))
              (last_under "conversion").
Proof.
  cbv zeta. revert meta_data.
  induction entries as [|[key value] entries IH]; intros meta_data;
    [done|].
  cbn [foldl].
  destruct (IH (stamp_callback cryptomatte_layer_name meta_data
                  (key, value))) as (Hm & Hh & Hc).
  rewrite Hm, Hh, Hc. clear IH Hm Hh Hc.
  rewrite !filter_cons. unfold stamp_callback. cbn [fst].
  repeat split; repeat case_decide; repeat case_bool_decide;
    try congruence; cbn; rewrite ?last_cons; by repeat case_match.
Qed.

(** [populate_meta_data] writes the meta data only. *)
Lemma populate_meta_data_pixels image image_user result result' :
  populate_meta_data image image_user result = Some result' →
  Result.type_ result' = Result.type_ result
  ∧ Result.precision_ result' = Result.precision_ result
  ∧ Result.data_ result' = Result.data_ result.
Proof.
  unfold populate_meta_data. intros Hsome.
  repeat (case_match; simplify_option_eq); done.
Qed.

(** X5.  [populate_meta_data] fails only on a multi-layer image without a
    render result.  It never touches type, precision and data of the
    result; the result is as it was when the image is not multi-layer or
    the image user names no layer or no pass of it; and the result is
    marked a 4D vector exactly when it was already, or the pass found has
    the channels XYZW. *)
Theorem populate_meta_data_cases image image_user result :
  match populate_meta_data image image_user result with
  | None => BKE_image_is_multilayer image = true ∧ Image.rr image = None
  | Some result' =>
      Result.type_ result' = Result.type_ result
      ∧ Result.precision_ result' = Result.precision_ result
      ∧ Result.data_ result' = Result.data_ result
      ∧ match render_pass_read image image_user with
        | None => result' = result
        | Some render_pass =>
            MetaData.is_4d_vector (Result.meta_data result')
            = MetaData.is_4d_vector (Result.meta_data result)
              || bool_decide (RenderPass.chan_id render_pass = "XYZW")
        end
  end.
Proof.
  unfold populate_meta_data, render_pass_read, get_render_layer.
  destruct (BKE_image_is_multilayer image); simpl; [|done].
  destruct (Image.rr image) as [rr|]; simpl; [|done].
  destruct (BLI_findlink _ _) as [render_layer|]; simpl; [|done].
  destruct (get_render_pass render_layer image_user) as [render_pass|];
    simpl; [|done].
  repeat split.
  case_bool_decide; simpl; rewrite ?stamp_callback_is_4d_vector;
    by rewrite ?orb_true_r, ?orb_false_r.
Qed.

(** Once the image user for the pass is computed, the meta data can be
    populated. *)
Lemma populate_meta_data_after_pass context image image_user pass_name
    image_user_for_pass image_user' result :
  compute_image_user_for_pass context image image_user pass_name
  = Some image_user_for_pass →
  is_Some (populate_meta_data image image_user' result).
Proof.
  unfold compute_image_user_for_pass, populate_meta_data, get_render_layer.
  intros Hpass.
  destruct (BKE_image_is_multilayer image); simpl; [|by eexists].
  destruct (Image.rr image) as [rr|]; simpl.
  - by repeat case_match; eexists.
  - by simplify_option_eq.
Qed.

(** For an image buffer that holds floats, [compute_linear_buffer] hands on
    that very float buffer, and the flags and the number of channels with
    it: nothing is converted. *)
Lemma compute_linear_buffer_float image_buffer pixels :
  ImBufBuffer.data (ImBuf.float_buffer image_buffer) = Some pixels →
  ImBuf.float_buffer (compute_linear_buffer image_buffer)
  = ImBuf.float_buffer image_buffer
  ∧ ImBuf.flags (compute_linear_buffer image_buffer)
    = ImBuf.flags image_buffer
  ∧ ImBuf.channels (compute_linear_buffer image_buffer)
    = ImBuf.channels image_buffer.
Proof.
  intros Hfloat. unfold compute_linear_buffer. simpl. rewrite Hfloat.
  by destruct (_ && _).
Qed.

(** X6.  When the image buffer for the pass holds floats, the constructor
    returns, and its result is read off that buffer: of type Float for one
    channel and Color otherwise, of half precision exactly when the buffer
    has the half-float flag, and, on the CPU, of the size of the buffer and
    filled from its own float pixels, which are not converted. *)
Theorem CachedImage_new_float context image image_user pass_name initial
    image_user_for_pass image_buffer pixels :
  BKE_image_acquire_ibuf image image_user = Some initial →
  compute_image_user_for_pass context image image_user pass_name
  = Some image_user_for_pass →
  BKE_image_acquire_ibuf image image_user_for_pass = Some image_buffer →
  ImBufBuffer.data (ImBuf.float_buffer image_buffer) = Some pixels →
  ∃ cached_image,
    CachedImage_new context image image_user pass_name = Some cached_image
    ∧ Result.type_ (CachedImage.result cached_image)
      = (if ImBuf.channels image_buffer =? 1 then Float else Color)
    ∧ Result.precision_ (CachedImage.result cached_image)
      = (if Z.land (ImBuf.flags image_buffer) IB_halffloat =? 0
         then Full else Half)
    ∧ (Context.use_gpu context = false →
       Result.data_ (CachedImage.result cached_image)
       = Allocated (ImBuf.x image_buffer, ImBuf.y image_buffer)
           (copy_generic_type (ImBuf.channels image_buffer)
              (if ImBuf.channels image_buffer =? 1 then Float else Color)
              (ImBuf.x image_buffer, ImBuf.y image_buffer) (Some pixels))).
Proof.
  intros Hinitial Hpass Hbuffer Hfloat.
  destruct (compute_linear_buffer_float _ _ Hfloat)
    as (Hshared & Hflags & Hchannels).
  unfold CachedImage_new. rewrite Hinitial, Hpass. simpl.
  rewrite Hbuffer. simpl. rewrite Hshared, Hflags, Hchannels, Hfloat.
  rewrite (bool_decide_eq_false_2 (Some pixels = None)) by done.
  rewrite andb_false_r.
  destruct (Context.use_gpu context); simpl;
    match goal with
    | |- context [populate_meta_data ?i ?u ?r] =>
        destruct (populate_meta_data_after_pass _ _ _ _ _ u r Hpass)
          as [result' Hmeta]
    end; rewrite Hmeta; simpl;
    destruct (populate_meta_data_pixels _ _ _ _ Hmeta)
      as (Htype & Hprec & Hdata);
    eexists; (split; [reflexivity|]); simpl;
    rewrite Htype, Hprec, Hdata; simpl;
    (split; [done|]); (split; [by destruct (_ =? 0)|]); done.
Qed.

(** X7.  The constructor dereferences a null pointer whenever the image
    yields a buffer for the image user of the request and then the image
    user for the pass cannot be computed, or the image yields no buffer for
    it, or, on the CPU, the buffer for the pass is not empty and the linear
    buffer made of it has no float data to load the texels from. *)
Theorem CachedImage_new_fails_when context image image_user pass_name :
  is_Some (BKE_image_acquire_ibuf image image_user) →
  match compute_image_user_for_pass context image image_user pass_name with
  | None => True
  | Some image_user_for_pass =>
      match BKE_image_acquire_ibuf image image_user_for_pass with
      | None => True
      | Some image_buffer =>
          Context.use_gpu context = false
          ∧ 0 < ImBuf.x image_buffer
          ∧ 0 < ImBuf.y image_buffer
          ∧ ImBufBuffer.data
              (ImBuf.float_buffer (compute_linear_buffer image_buffer))
            = None
      end
  end →
  CachedImage_new context image image_user pass_name = None.
Proof.
  intros [initial Hinitial]. unfold CachedImage_new. rewrite Hinitial.
  destruct (compute_image_user_for_pass _ _ _ _) as [image_user_for_pass|];
    simpl; [|done].
  destruct (BKE_image_acquire_ibuf image image_user_for_pass)
    as [image_buffer|]; simpl; [|done].
  intros (-> & Hx & Hy & ->).
  apply Z.ltb_lt in Hx, Hy. by rewrite Hx, Hy.
Qed.


End Constructor.

(** * Further properties of the container *)

Section ContainerExtras.
Context `{Env}.
Implicit Types (c : CachedImageContainer.t) (id_key : string) (key : KeyFields)
  (cached_image : CachedImage.t).

(** X9.  Two calls of [reset] with no [get] between them leave no cached
    image at all: the first marks every image it keeps as not needed, and
    the second drops what is not needed. *)
Theorem reset_twice_empties c :
  (reset;; reset) c
  = Some (tt, CachedImageContainer.make ∅ (CachedImageContainer.constructed c)).
Proof.
  unfold mbind, Call_bind.
  destruct (reset c) as [[[] c1]|] eqn:Hreset1; [|done].
  destruct (reset c1) as [[[] c2]|] eqn:Hreset2; [|done].
  assert (Hcount : CachedImageContainer.constructed c2
                   = CachedImageContainer.constructed c).
  { injection Hreset1 as <-. by injection Hreset2 as <-. }
  destruct c2 as [map2 constructed2]; simpl in Hcount; subst constructed2.
  do 3 f_equal. apply map_empty. intros id_key.
  apply eq_None_not_Some. intros Hsome.
  apply (reset_owner _ _ id_key Hreset2) in Hsome
    as (key & cached_image & Hentry & Hneeded).
  apply (reset_leaves_unneeded _ _ _ _ _ Hreset1) in Hentry. congruence.
Qed.

(** X10.  No ID is left with an empty map of images: [reset] brings that
    about whatever it is called on, and [get] keeps it. *)
Theorem no_empty_owner_kept c :
  (∀ c', reset c = Some (tt, c') → no_empty_owner c')
  ∧ (∀ context image image_user pass_name r c',
       no_empty_owner c →
       get context image image_user pass_name c = Some (r, c') →
       no_empty_owner c').
Proof.
  split.
  - intros c' Hreset id_key inner. by apply (reset_owner c c' id_key).
  - intros context [image|] [image_user|] pass_name r c' Hinv;
      try (by intros [= _ <-]).
    unfold get.
    destruct (match _ !! _ with Some _ => _ | None => _ end)
      as [[cached_image constructed]|]; simpl; [|done].
    intros [= _ <-].
    intros id_key inner. simpl. rewrite lookup_insert.
    case_decide; [|by apply Hinv].
    intros [= <-]. apply insert_non_empty.
Qed.

(** X11.  What [get] returns is cached: after the call, the container holds
    for the request a cached image with the result returned, marked
    needed. *)
Theorem get_caches_what_it_returns context image image_user pass_name c r c' :
  get context (Some image) (Some image_user) pass_name c = Some (r, c') →
  ∃ cached_image,
    CachedImageContainer.entry (id_key_of image)
      (key_of context image image_user pass_name) c'
    = Some cached_image
    ∧ CachedImage.result cached_image = r
    ∧ CachedImage.needed cached_image = true.
Proof.
  intros (cached_image & _ & -> & Hentry & _)%get_inv.
  by eexists.
Qed.

(** X12.  [get] leaves every cached image other than the requested one as
    it was, but for the images of the ID name of the request when the
    recalculate flag of its image is set: those are gone. *)
Theorem get_keeps_other_images context image image_user pass_name c r c'
    id_key key :
  get context (Some image) (Some image_user) pass_name c = Some (r, c') →
  (id_key, key)
  ≠ (id_key_of image, key_of context image image_user pass_name) →
  CachedImageContainer.entry id_key key c'
  = if bool_decide (id_key = id_key_of image)
       && recalc_requested context image
    then None
    else CachedImageContainer.entry id_key key c.
Proof.
  intros (cached_image & _ & _ & _ & Hkept)%get_inv Hother.
  rewrite (Hkept _ _ Hother). unfold kept.
  case_decide; [rewrite bool_decide_eq_true_2 by done
               |rewrite bool_decide_eq_false_2 by done]; simpl; [|done].
  by destruct (recalc_requested context image).
Qed.

(** X13.  A cached image that was requested survives the [reset] that
    follows: the same request in the next evaluation of the same frame,
    with the recalculate flag not set, returns the same result and does
    not run the constructor. *)
Theorem get_survives_reset context context' image image_user pass_name c r
    c1 :
  get context (Some image) (Some image_user) pass_name c = Some (r, c1) →
  same_pass context image context' →
  ∃ c2 c3,
    reset c1 = Some (tt, c2)
    ∧ get context' (Some image) (Some image_user) pass_name c2
      = Some (r, c3)
    ∧ CachedImageContainer.constructed c3
      = CachedImageContainer.constructed c1.
Proof.
  intros (cached_image & _ & -> & Hentry & _)%get_inv [Hframe Hflag].
  destruct (reset c1) as [[[] c2]|] eqn:Hreset; [|done].
  assert (Hcount : CachedImageContainer.constructed c2
                   = CachedImageContainer.constructed c1)
    by (by injection Hreset as <-).
  pose proof (reset_entry c1 c2 (id_key_of image)
                (key_of context image image_user pass_name) Hreset) as Hkept.
  rewrite Hentry in Hkept. simpl in Hkept. unfold pruned in Hkept.
  simpl in Hkept.
  assert (Hfound : found context' image image_user pass_name c2
                   = Some (CachedImage.set_needed false
                             (CachedImage.set_needed true cached_image))).
  { unfold found. rewrite Hflag.
    by rewrite (key_of_same_frame context context'). }
  destruct (get_returns context' image image_user pass_name c2)
    as [[r' c3] Hget]; [by rewrite Hfound|].
  destruct (get_inv _ _ _ _ _ _ _ Hget) as (hit & Hcase & -> & _).
  rewrite Hfound in Hcase. destruct Hcase as [-> Hcount'].
  exists c2, c3. split; [done|]. split; [done|]. congruence.
Qed.



End ContainerExtras.

(** * Further properties of the utilities *)

Section LinkExtras.
Context `{Links}.

(** X15.  For a linked input, [get_input_origin_socket] returns the origin
    the traversal visits last, whatever it visited before.
    [get_output_linked_to_input] then returns that origin when it is an
    output and the null output socket when it is an input; it dereferences
    a null socket when the traversal visits nothing, or a null socket
    last. *)
Theorem get_output_linked_to_input_linked (input : DSocket.ref) :
  is_logically_linked input = true →
  get_input_origin_socket input
  = default DSocket.null (last (origin_sockets input))
  ∧ get_output_linked_to_input input
    = match last (origin_sockets input) with
      | Some (Some origin) =>
          if bNodeSocket.is_input (DSocket.bsocket origin)
          then Some DSocket.null
          else Some (Some origin)
      | _ => None
      end.
Proof.
  intros Hlinked. split; [by apply get_input_origin_socket_last|].
  unfold get_output_linked_to_input.
  rewrite get_input_origin_socket_last by done.
  by destruct (last (origin_sockets input)) as [[origin|]|].
Qed.

(** The iteration of [number_of_inputs_linked_to_output_conditioned], from
    any count. *)
Lemma number_of_inputs_fold (condition : DSocket.ref → bool)
    (targets : list (DSocket.ref * TargetSocketPathInfo)) (count : Z) :
  foldl (λ count (target : DSocket.ref * TargetSocketPathInfo),
           if condition target.1 then count + 1 else count)
        count targets
  = count
    + Z.of_nat (length (filter (λ target, condition target.1 = true)
                               targets)).
Proof.
  revert count. induction targets as [|target targets IH]; intros count;
    simpl; [lia|].
  rewrite IH, filter_cons.
  destruct (condition target.1) eqn:Hcondition.
  - rewrite decide_True by done. simpl. lia.
  - rewrite decide_False by congruence. done.
Qed.

(** X16.  [number_of_inputs_linked_to_output_conditioned] is 0 for an
    output that is not logically linked, whatever its targets, and else the
    number of targets that satisfy the condition: never negative, never
    more than there are targets. *)
Theorem number_of_inputs_linked_counts (output : DSocket.ref)
    (condition : DSocket.ref → bool) :
  number_of_inputs_linked_to_output_conditioned output condition
  = (if is_logically_linked output
     then Z.of_nat (length (filter (λ target, condition target.1 = true)
                                   (target_sockets output)))
     else 0)
  ∧ 0 ≤ number_of_inputs_linked_to_output_conditioned output condition
    ≤ Z.of_nat (length (target_sockets output)).
Proof.
  unfold number_of_inputs_linked_to_output_conditioned,
    foreach_target_socket.
  destruct (is_logically_linked output); simpl; [|lia].
  rewrite number_of_inputs_fold. split; [lia|].
  pose proof (length_filter (λ target : DSocket.ref * TargetSocketPathInfo,
                               condition target.1 = true)
                (target_sockets output)).
  lia.
Qed.

(** X17.  [is_output_linked_to_node_conditioned] answers true exactly when
    the node of some target of the output satisfies the condition; for a
    logically linked output, that is exactly when
    [number_of_inputs_linked_to_output_conditioned] counts an input whose
    node satisfies it. *)
Theorem is_output_linked_iff_some_target (output : DSocket.ref)
    (condition : DNode.t → bool) :
  ((is_output_linked_to_node_conditioned output condition).1 = true
   ↔ ∃ target,
       target ∈ target_sockets output
       ∧ condition (DSocket.node target.1) = true)
  ∧ (is_logically_linked output = true →
     ((is_output_linked_to_node_conditioned output condition).1 = true
      ↔ 0 < number_of_inputs_linked_to_output_conditioned output
               (condition ∘ DSocket.node))).
Proof.
  rewrite is_output_linked_to_node_conditioned_all. simpl.
  assert (Hexists :
    existsb condition (DSocket.node ∘ fst <$> target_sockets output) = true
    ↔ ∃ target,
        target ∈ target_sockets output
        ∧ condition (DSocket.node target.1) = true).
  { rewrite existsb_exists. split.
    - intros (node & Hin & Hcondition).
      apply list_elem_of_In, list_elem_of_fmap in Hin
        as (target & -> & Hin).
      by exists target.
    - intros (target & Hin & Hcondition).
      exists (DSocket.node target.1). split; [|done].
      apply list_elem_of_In, list_elem_of_fmap. by exists target. }
  split; [done|]. intros Hlinked. rewrite Hexists.
  unfold number_of_inputs_linked_to_output_conditioned,
    foreach_target_socket.
  rewrite Hlinked. cbn [negb].
  rewrite (number_of_inputs_fold (condition ∘ DSocket.node)).
  split.
  - intros (target & Hin & Hcondition).
    assert (Hfiltered :
      target ∈ filter (λ target : DSocket.ref * TargetSocketPathInfo,
                         (condition ∘ DSocket.node) target.1 = true)
                      (target_sockets output))
      by (by apply list_elem_of_filter).
    destruct (filter _ _); [by apply elem_of_nil in Hfiltered|].
    simpl. lia.
  - intros Hcount.
    destruct (filter _ (target_sockets output)) as [|target filtered]
      eqn:Hfilter; [simpl in Hcount; lia|].
    assert (Hin : target ∈ filter
                    (λ target : DSocket.ref * TargetSocketPathInfo,
                       (condition ∘ DSocket.node) target.1 = true)
                    (target_sockets output))
      by (rewrite Hfilter; left).
    apply list_elem_of_filter in Hin as [Hcondition Hin].
    by exists target.
Qed.

End LinkExtras.

Section PreviewExtras.
Context `{Links}.
Variables NODE_PREVIEW NODE_HIDDEN : Z.
Variable output_sockets : bNode.t → list bNodeSocket.t.

(** The loop finds the first linked output, if there is one. *)
Lemma first_linked_output_cases context outputs :
  match first_linked_output context outputs with
  | Some found =>
      DSocket.context found = context
      ∧ is_logically_linked found = true
      ∧ ∃ before after,
          outputs = before ++ DSocket.bsocket found :: after
          ∧ ∀ output, output ∈ before →
              is_logically_linked (DSocket.make context output) = false
  | None =>
      ∀ output, output ∈ outputs →
        is_logically_linked (DSocket.make context output) = false
  end.
Proof.
  induction outputs as [|output outputs IH]; simpl.
  - intros output Hin. by apply elem_of_nil in Hin.
  - destruct (is_logically_linked (DSocket.make context output)) eqn:Hlinked.
    + repeat split; try done. exists [], outputs. split; [done|].
      intros output' Hin. by apply elem_of_nil in Hin.
    + destruct (first_linked_output context outputs) as [found|].
      * destruct IH as (Hcontext & Hfound & before & after & -> & Hbefore).
        repeat split; try done. exists (output :: before), after.
        split; [done|]. intros output' [->|Hin]%elem_of_cons; auto.
      * intros output' [->|Hin]%elem_of_cons; auto.
Qed.

(** X18.  [find_preview_output_socket] returns a socket only for a node that
    needs a preview: the socket is then, in the context of the node, the
    first of the output sockets of the node that is logically linked.  It
    returns the null socket exactly when the node needs no preview or none
    of its output sockets is logically linked. *)
Theorem find_preview_output_socket_first_linked (node : DNode.t) :
  match find_preview_output_socket NODE_PREVIEW NODE_HIDDEN output_sockets
          node with
  | Some found =>
      is_node_preview_needed NODE_PREVIEW NODE_HIDDEN node = true
      ∧ DSocket.context found = DNode.context node
      ∧ is_logically_linked found = true
      ∧ ∃ before after,
          output_sockets (DNode.bnode node)
          = before ++ DSocket.bsocket found :: after
          ∧ ∀ output, output ∈ before →
              is_logically_linked (DSocket.make (DNode.context node) output)
              = false
  | None =>
      is_node_preview_needed NODE_PREVIEW NODE_HIDDEN node = false
      ∨ ∀ output, output ∈ output_sockets (DNode.bnode node) →
          is_logically_linked (DSocket.make (DNode.context node) output)
          = false
  end.
Proof.
  unfold find_preview_output_socket.
  destruct (is_node_preview_needed NODE_PREVIEW NODE_HIDDEN node); simpl;
    [|by left].
  pose proof (first_linked_output_cases (DNode.context node)
                (output_sockets (DNode.bnode node))) as Hloop.
  destruct (first_linked_output _ _) as [found|]; [|by right].
  by destruct Hloop as (? & ? & ?).
Qed.

End PreviewExtras.

(** X19.  [operator==] of the cached image key is an equivalence: every key
    equals itself, and the equality is symmetric and transitive. *)
Theorem CachedImageKey_eqb_equivalence (a b c : CachedImageKey.t) :
  CachedImageKey.eqb a a = true
  ∧ CachedImageKey.eqb a b = CachedImageKey.eqb b a
  ∧ (CachedImageKey.eqb a b = true → CachedImageKey.eqb b c = true →
     CachedImageKey.eqb a c = true).
Proof.
  split; [by apply CachedImageKey_eqb_fields|]. split.
  - apply eq_true_iff_eq. rewrite !CachedImageKey_eqb_fields.
    by split.
  - rewrite !CachedImageKey_eqb_fields. congruence.
Qed.

(** * The further properties on the two scenes *)

(** The Combined pass of Image_A, whose buffer holds floats. *)
Lemma CachedImage_new_float_witness :
  ∃ cached_image,
    CachedImage_new (H := Demo.env) (Demo.context 5 0) Demo.image_a
      (ImageUser.make 5 0 0 0 0) "Combined"
    = Some cached_image
    ∧ Result.type_ (CachedImage.result cached_image) = Color
    ∧ Result.precision_ (CachedImage.result cached_image) = Full
    ∧ (Context.use_gpu (Demo.context 5 0) = false →
       Result.data_ (CachedImage.result cached_image)
       = Allocated (2, 1) [1; 2; 3; 4; 5; 6; 7; 8]).
Proof.
  apply (CachedImage_new_float (H := Demo.env) (Demo.context 5 0)
           Demo.image_a (ImageUser.make 5 0 0 0 0) "Combined" Demo.buffer
           (ImageUser.make 5 0 0 0 0) Demo.buffer [1; 2; 3; 4; 5; 6; 7; 8]);
    reflexivity.
Defined.

(** The Vector pass of Image_A, for which the image yields no buffer. *)
Lemma CachedImage_new_fails_when_witness :
  CachedImage_new (H := Scene.unbuffered_pass) (Demo.context 5 0)
    Demo.image_a (ImageUser.make 5 0 0 0 0) "Vector"
  = None.
Proof.
  apply (CachedImage_new_fails_when (H := Scene.unbuffered_pass)
           (Demo.context 5 0) Demo.image_a (ImageUser.make 5 0 0 0 0)
           "Vector").
  - by eexists.
  - exact I.
Defined.


(** The first request of the Combined pass of Image_A at frame 5. *)
Lemma get_caches_what_it_returns_witness :
  ∃ cached_image,
    CachedImageContainer.entry "IMImage_ALILibX" (5, 0, 0, "Combined")
      Demo.after_first_get
    = Some cached_image
    ∧ CachedImage.result cached_image = CachedImage.result Demo.combined_a
    ∧ CachedImage.needed cached_image = true.
Proof.
  apply (get_caches_what_it_returns (H := Demo.env) (Demo.context 5 0)
           Demo.image_a Demo.image_user "Combined"
           CachedImageContainer.empty).
  vm_compute. reflexivity.
Defined.

(** A request of the Vector pass of Image_A with the recalculate flag set,
    on the container that holds its Combined pass: the Combined pass is
    gone. *)
Lemma get_keeps_other_images_witness :
  ∃ r c',
    get (H := Demo.env) (Demo.context 5 1) (Some Demo.image_a)
      (Some Demo.image_user) "Vector" Demo.after_first_get
    = Some (r, c')
    ∧ CachedImageContainer.entry "IMImage_ALILibX" (5, 0, 0, "Combined") c'
      = None.
Proof.
  eexists _, _. split; [vm_compute; reflexivity|].
  eapply (get_keeps_other_images (H := Demo.env) (Demo.context 5 1)
            Demo.image_a Demo.image_user "Vector" Demo.after_first_get).
  - vm_compute. reflexivity.
  - discriminate.
Defined.

(** The Combined pass of Image_A, requested at frame 5 in two evaluations
    with a [reset] between them. *)
Lemma get_survives_reset_witness :
  ∃ c2 c3,
    reset Demo.after_first_get = Some (tt, c2)
    ∧ get (H := Demo.env) (Demo.context 5 0) (Some Demo.image_a)
        (Some Demo.image_user) "Combined" c2
      = Some (CachedImage.result Demo.combined_a, c3)
    ∧ CachedImageContainer.constructed c3 = 1%nat.
Proof.
  apply (get_survives_reset (H := Demo.env) (Demo.context 5 0)
           (Demo.context 5 0) Demo.image_a Demo.image_user "Combined"
           CachedImageContainer.empty (CachedImage.result Demo.combined_a)
           Demo.after_first_get).
  - vm_compute. reflexivity.
  - split; reflexivity.
Defined.


(** The input of the Viewer node of [Demo], behind its two reroutes. *)
Lemma get_output_linked_to_input_linked_witness :
  get_input_origin_socket (H := Demo.links) Demo.viewer_in
  = Some Demo.image_out
  ∧ get_output_linked_to_input (H := Demo.links) Demo.viewer_in
    = Some (Some Demo.image_out).
Proof.
  apply (get_output_linked_to_input_linked (H := Demo.links) Demo.viewer_in).
  reflexivity.
Defined.

(** With the bits of [DNA_node_types.h], in the tree of [Scene] where the
    second output of each node is the linked one: the preview output of the
    Blur node, which asks for a preview, is its second output, and the
    Viewer node, which does not, has none. *)
Example find_preview_output_socket_second :
  find_preview_output_socket (H := Scene.second_linked) 4 8
    Scene.output_sockets (DNode.make Demo.root Demo.blur_node)
  = Some (DSocket.make Demo.root
            (bNodeSocket.make Demo.blur_node SOCK_OUT SOCK_RGBA 1))
  ∧ find_preview_output_socket (H := Scene.second_linked) 4 8
      Scene.output_sockets (DNode.make Demo.root Demo.viewer_node)
    = DSocket.null.
Proof. by split. Qed.
